(** * asmqdm: the Python wrapper of the assembly progress bar

    A shallow embedding of [src/python/asmqdm/_ffi.py] and
    [src/python/asmqdm/core.py].  The wrapper is stateful Python code that
    talks to a shared library through ctypes; it is modelled with a state
    and exception monad over

    - the process-wide state ([world]): the lazily loaded library, the
      state of the engine behind the call boundary, the log of boundary
      calls, and the allocator of [bytes] objects;
    - the attributes of one [asmqdm] instance.

    The engine itself (libasmqdm.so, written in assembly) is not part of
    the Python sources: it is a parameter, the class [Engine]. *)

From Stdlib Require Import ZArith List Bool Ascii String Lia.
Import ListNotations.
Local Open Scope Z_scope.

(** ** Python values *)

(** A [bytes] object: an identity (two distinct objects may hold the same
    contents) and its contents. *)
Record pybytes : Type := mk_bytes { ob_id : nat; ob_val : list Byte.byte }.

(** The constant [b""]: interned by the interpreter, never released. *)
Definition empty_bytes : pybytes := mk_bytes 0 [].

(** [len(b)] *)
Definition bytes_len (b : pybytes) : Z := Z.of_nat (List.length (ob_val b)).

(** Truth value of a [bytes] object / of a [str]: non-empty. *)
Definition bytes_truthy (b : pybytes) : bool :=
  match ob_val b with [] => false | _ :: _ => true end.

(** A [str] is represented by its UTF-8 encoding: a Rocq string is a
    sequence of bytes.  A lone surrogate (U+D800 to U+DFFF), which a
    [str] may hold and UTF-8 does not admit, is represented by the three
    bytes that the error handler 'surrogatepass' writes for it: 0xED,
    then a byte from 0xA0 to 0xBF, then a continuation byte. *)
Definition str_truthy (s : string) : bool :=
  match s with EmptyString => false | String _ _ => true end.

(** The [str] holds a lone surrogate.  In a well-formed sequence the
    byte 0xED only occurs as the first byte of a three-byte character,
    and the second byte tells a surrogate (0xA0 to 0xBF) from a
    character of U+D000 to U+D7FF (0x80 to 0x9F). *)
Fixpoint has_surrogate (s : string) : bool :=
  match s with
  | EmptyString => false
  | String a s' =>
      match s' with
      | String b _ =>
          ((N_of_ascii a =? 237)%N
           && (160 <=? N_of_ascii b)%N && (N_of_ascii b <=? 191)%N)
          || has_surrogate s'
      | EmptyString => false
      end
  end.

(** Exceptions that the modelled code raises. *)
Inductive exn : Type :=
| OSError        (* _find_library: libasmqdm.so not found *)
| StopIteration
| UnicodeEncodeError    (* str.encode('utf-8') on a lone surrogate *)
| OverflowError.        (* len() of a range longer than sys.maxsize *)

Inductive outcome (A : Type) : Type :=
| Return (a : A)
| Raise (e : exn).
Arguments Return {A} a.
Arguments Raise {A} e.

(** ** ctypes conversions (the [argtypes] of [_setup_functions]) *)

(** ctypes does no overflow checking: an [int] passed as [c_int64] or
    [c_uint64] is reduced modulo 2^64. *)
Definition c_int64 (z : Z) : Z := (z + 2 ^ 63) mod 2 ^ 64 - 2 ^ 63.
Definition c_uint64 (z : Z) : Z := z mod 2 ^ 64.

(** A [c_void_p] result: [None] for NULL, otherwise the address. *)
Definition handle : Type := Z.

(** ** The engine behind the call boundary *)

(** [eng] stands for everything that lives behind the boundary: the
    progress-bar states, the render threads and the terminal they write
    to.  Only the engine writes progress-bar bytes to the terminal. *)
Class Engine : Type := {
  eng : Type;
  progress_bar_create :
    Z -> option pybytes -> Z -> Z -> eng -> option handle * eng;
  progress_bar_update : option handle -> Z -> eng -> Z * eng;
  progress_bar_render : option handle -> eng -> eng;
  progress_bar_close : option handle -> eng -> eng;
  progress_bar_set_description :
    option handle -> pybytes -> Z -> eng -> eng;
  progress_bar_create_async :
    Z -> option pybytes -> Z -> Z -> eng -> option handle * eng;
  progress_bar_update_async : option handle -> Z -> eng -> Z * eng;
  progress_bar_close_async : option handle -> eng -> eng;
}.

(** One call across the boundary, with the converted arguments and, where
    the wrapper uses it, the result. *)
Inductive ffi_call : Type :=
| Call_create (total : Z) (desc : option pybytes) (desc_len : Z)
              (flags : Z) (ret : option handle)
| Call_update (state : option handle) (n : Z) (ret : Z)
| Call_render (state : option handle)
| Call_close (state : option handle)
| Call_set_description (state : option handle) (desc : pybytes) (desc_len : Z)
| Call_create_async (total : Z) (desc : option pybytes) (desc_len : Z)
                    (flags : Z) (ret : option handle)
| Call_update_async (state : option handle) (n : Z) (ret : Z)
| Call_close_async (state : option handle).

(** ** State and exception monad *)

Definition ST (S A : Type) : Type := S -> outcome A * S.

Definition ret {S A} (a : A) : ST S A := fun s => (Return a, s).

Definition bind {S A B} (m : ST S A) (k : A -> ST S B) : ST S B :=
  fun s =>
    match m s with
    | (Return a, s') => k a s'
    | (Raise e, s') => (Raise e, s')
    end.

Definition raise {S A} (e : exn) : ST S A := fun s => (Raise e, s).

Definition get {S} : ST S S := fun s => (Return s, s).

Definition modify {S} (f : S -> S) : ST S unit := fun s => (Return tt, f s).

(** [try: body / except StopIteration: handler] *)
Definition try_except_StopIteration {S A} (body handler : ST S A) : ST S A :=
  fun s =>
    match body s with
    | (Raise StopIteration, s') => handler s'
    | r => r
    end.

Declare Scope py_scope.
Delimit Scope py_scope with py.
Notation "x <- m ;; k" := (bind m (fun x => k))
  (at level 61, m at next level, right associativity) : py_scope.
Notation "m ;; k" := (bind m (fun _ => k))
  (at level 61, right associativity) : py_scope.
Local Open Scope py_scope.

(** ** _ffi.py *)

Module _ffi.
Section WithEngine.
Context {E : Engine}.

(** Process-wide state. *)
Record world : Type := mk_world {
  lib_found : bool;        (* the library is installed: one of the *)
                           (* locations of _find_library exists, and *)
                           (* the file there is the project's library, *)
                           (* which ctypes.CDLL loads and which exports *)
                           (* every function that _setup_functions *)
                           (* configures *)
  _lib : bool;             (* the global _lib is not None *)
  engine : eng;            (* what is behind the boundary *)
  calls : list ffi_call;   (* boundary calls so far, oldest first *)
  next_id : nat;           (* identity of the next allocated bytes object *)
}.

Definition set_lib_loaded (w : world) : world :=
  mk_world (lib_found w) true (engine w) (calls w) (next_id w).

Definition _find_library : ST world unit :=
  fun w => if lib_found w then (Return tt, w) else (Raise OSError, w).

(** [_get_lib], lines 46-52.  [lib_found] stands for an installed
    library, so the two steps of the first call, [ctypes.CDLL] and
    [_setup_functions], succeed whenever [_find_library] does.  A file
    that is found and is not this library (CDLL raising OSError, or a
    missing function raising AttributeError once [_lib] is assigned) is
    outside the model. *)
Definition _get_lib : ST world unit :=
  fun w =>
    if _lib w then (Return tt, w)
    else (_find_library ;; modify set_lib_loaded) w.

(** A foreign call: the engine runs, the call is logged. *)
Definition foreign {A} (f : eng -> A * eng) (log : A -> ffi_call)
  : ST world A :=
  fun w =>
    let (a, e') := f (engine w) in
    (Return a,
     mk_world (lib_found w) (_lib w) e' (calls w ++ [log a]) (next_id w)).

Definition FLAG_LEAVE : Z := 0x01.
Definition FLAG_DISABLE : Z := 0x02.
Definition FLAG_ASCII : Z := 0x04.
Definition FLAG_ASYNC : Z := 0x20.

(** [len(desc_bytes) if desc_bytes else 0] *)
Definition desc_len_of (desc_bytes : option pybytes) : Z :=
  match desc_bytes with
  | Some b => if bytes_truthy b then bytes_len b else 0
  | None => 0
  end.

(** The flags word that [create] builds. *)
Definition create_flags (leave disable ascii_only : bool) : Z :=
  let flags := 0 in
  let flags := if leave then Z.lor flags FLAG_LEAVE else flags in
  let flags := if disable then Z.lor flags FLAG_DISABLE else flags in
  let flags := if ascii_only then Z.lor flags FLAG_ASCII else flags in
  flags.

Definition create (total : Z) (desc_bytes : option pybytes)
           (leave disable ascii_only : bool) : ST world (option handle) :=
  _get_lib ;;
  let flags := create_flags leave disable ascii_only in
  let desc_len := desc_len_of desc_bytes in
  foreign
    (progress_bar_create (c_int64 total) desc_bytes (c_int64 desc_len)
                         (c_uint64 flags))
    (Call_create (c_int64 total) desc_bytes (c_int64 desc_len)
                 (c_uint64 flags)).

Definition update (state : option handle) (n : Z) : ST world Z :=
  _get_lib ;;
  foreign (progress_bar_update state (c_int64 n))
          (Call_update state (c_int64 n)).

Definition render (state : option handle) : ST world unit :=
  _get_lib ;;
  foreign (fun e => (tt, progress_bar_render state e))
          (fun _ => Call_render state).

Definition close (state : option handle) : ST world unit :=
  _get_lib ;;
  foreign (fun e => (tt, progress_bar_close state e))
          (fun _ => Call_close state).

Definition set_description (state : option handle) (desc_bytes : pybytes)
  : ST world unit :=
  _get_lib ;;
  foreign
    (fun e => (tt, progress_bar_set_description
                     state desc_bytes (c_int64 (bytes_len desc_bytes)) e))
    (fun _ => Call_set_description
                state desc_bytes (c_int64 (bytes_len desc_bytes))).

(** The flags word that [create_async] builds. *)
Definition create_async_flags (leave disable ascii_only : bool) : Z :=
  let flags := FLAG_ASYNC in
  let flags := if leave then Z.lor flags FLAG_LEAVE else flags in
  let flags := if disable then Z.lor flags FLAG_DISABLE else flags in
  let flags := if ascii_only then Z.lor flags FLAG_ASCII else flags in
  flags.

Definition create_async (total : Z) (desc_bytes : option pybytes)
           (leave disable ascii_only : bool) : ST world (option handle) :=
  _get_lib ;;
  let flags := create_async_flags leave disable ascii_only in
  let desc_len := desc_len_of desc_bytes in
  foreign
    (progress_bar_create_async (c_int64 total) desc_bytes
                               (c_int64 desc_len) (c_uint64 flags))
    (Call_create_async (c_int64 total) desc_bytes (c_int64 desc_len)
                       (c_uint64 flags)).

Definition update_async (state : option handle) (n : Z) : ST world Z :=
  _get_lib ;;
  foreign (progress_bar_update_async state (c_int64 n))
          (Call_update_async state (c_int64 n)).

Definition close_async (state : option handle) : ST world unit :=
  _get_lib ;;
  foreign (fun e => (tt, progress_bar_close_async state e))
          (fun _ => Call_close_async state).

End WithEngine.
End _ffi.

(** ** core.py *)

Module core.
Section WithEngine.
Context {E : Engine}.
Context {T : Type}.

Local Abbreviation world := (@_ffi.world E).

(** A finite iterable: the elements it produces, in order, whether it
    has a [__len__] (a list or a range does, a generator does not), and
    whether it is its own iterator (a generator, a [map] or a file
    object is: [iter(x)] is [x], and what was taken from it is gone; a
    list or a range is not: [iter(x)] is a new iterator from the first
    element).  For an iterable that is its own iterator, [items] are the
    elements it has still to produce. *)
Record pyiterable : Type := mk_iterable {
  items : list T;
  has_len : bool;
  one_shot : bool;
}.

(** [len(iterable)], for an object whose elements are held in memory,
    so that its length is a valid size.  The length of a range, which
    may exceed [sys.maxsize], is in [Range]. *)
Definition len (it : pyiterable) : Z := Z.of_nat (List.length (items it)).

(** The attributes of an [asmqdm] instance, under their names. *)
Record asmqdm : Type := mk_asmqdm {
  iterable : option pyiterable;
  desc : option string;
  leave : bool;
  disable : bool;
  ascii_only : bool;
  async_render : bool;
  total : Z;
  _state : option handle;
  _closed : bool;
  _is_async : bool;
  _desc_bytes : option pybytes;
  _iterator : option (list T);   (* the elements not yet produced *)
  n : Z;
}.

Definition set_desc (d : option string) (s : asmqdm) : asmqdm :=
  mk_asmqdm (iterable s) d (leave s) (disable s) (ascii_only s)
            (async_render s) (total s) (_state s) (_closed s) (_is_async s)
            (_desc_bytes s) (_iterator s) (n s).

Definition set__state (h : option handle) (s : asmqdm) : asmqdm :=
  mk_asmqdm (iterable s) (desc s) (leave s) (disable s) (ascii_only s)
            (async_render s) (total s) h (_closed s) (_is_async s)
            (_desc_bytes s) (_iterator s) (n s).

Definition set__closed (b : bool) (s : asmqdm) : asmqdm :=
  mk_asmqdm (iterable s) (desc s) (leave s) (disable s) (ascii_only s)
            (async_render s) (total s) (_state s) b (_is_async s)
            (_desc_bytes s) (_iterator s) (n s).

Definition set__desc_bytes (b : option pybytes) (s : asmqdm) : asmqdm :=
  mk_asmqdm (iterable s) (desc s) (leave s) (disable s) (ascii_only s)
            (async_render s) (total s) (_state s) (_closed s) (_is_async s)
            b (_iterator s) (n s).

Definition set__iterator (it : option (list T)) (s : asmqdm) : asmqdm :=
  mk_asmqdm (iterable s) (desc s) (leave s) (disable s) (ascii_only s)
            (async_render s) (total s) (_state s) (_closed s) (_is_async s)
            (_desc_bytes s) it (n s).

Definition set_n (k : Z) (s : asmqdm) : asmqdm :=
  mk_asmqdm (iterable s) (desc s) (leave s) (disable s) (ascii_only s)
            (async_render s) (total s) (_state s) (_closed s) (_is_async s)
            (_desc_bytes s) (_iterator s) k.

(** The object that [self.iterable] refers to has changed (the
    attribute is never assigned after [__init__]). *)
Definition set_iterable (it : option pyiterable) (s : asmqdm) : asmqdm :=
  mk_asmqdm it (desc s) (leave s) (disable s) (ascii_only s)
            (async_render s) (total s) (_state s) (_closed s) (_is_async s)
            (_desc_bytes s) (_iterator s) (n s).

(** The arguments of the constructor. [file], [ncols] and [unit] are
    accepted and ignored by the source. *)
Record init_args : Type := mk_args {
  arg_iterable : option pyiterable;
  arg_desc : option string;
  arg_total : option Z;
  arg_leave : bool;
  arg_disable : bool;
  arg_ascii : bool;
  arg_async_render : bool;
}.

(** The defaults of the signature: [asmqdm()]. *)
Definition default_args : init_args :=
  mk_args None None None true false false false.

(** [s.encode('utf-8')]: a new bytes object, or UnicodeEncodeError when
    the string holds a lone surrogate. *)
Definition encode (s : string) : ST world pybytes :=
  fun w =>
    if has_surrogate s then (Raise UnicodeEncodeError, w)
    else
      (Return (mk_bytes (_ffi.next_id w) (list_byte_of_string s)),
       _ffi.mk_world (_ffi.lib_found w) (_ffi._lib w) (_ffi.engine w)
                     (_ffi.calls w) (S (_ffi.next_id w))).

(** The value stored in [self.total] for an unknown length. *)
Definition UNKNOWN_LENGTH : Z := 0.

(** Lines 107-113: the total of the new instance. *)
Definition init_total (a : init_args) : Z :=
  match arg_total a with
  | Some t => t
  | None =>
      match arg_iterable a with
      | Some it => if has_len it then len it else UNKNOWN_LENGTH
      | None => UNKNOWN_LENGTH
      end
  end.

(** [self.desc.encode('utf-8') if self.desc else None] *)
Definition init_desc_bytes (d : option string) : ST world (option pybytes) :=
  match d with
  | Some s => if str_truthy s then (b <- encode s ;; ret (Some b))
              else ret None
  | None => ret None
  end.

Definition __init__ (a : init_args) : ST world asmqdm :=
  let self_total := init_total a in
  if negb (arg_disable a) then
    desc_bytes <- init_desc_bytes (arg_desc a) ;;
    if arg_async_render a then
      st <- _ffi.create_async self_total desc_bytes (arg_leave a)
                              (arg_disable a) (arg_ascii a) ;;
      ret (mk_asmqdm (arg_iterable a) (arg_desc a) (arg_leave a)
                     (arg_disable a) (arg_ascii a) (arg_async_render a)
                     self_total st false true desc_bytes None 0)
    else
      st <- _ffi.create self_total desc_bytes (arg_leave a)
                        (arg_disable a) (arg_ascii a) ;;
      ret (mk_asmqdm (arg_iterable a) (arg_desc a) (arg_leave a)
                     (arg_disable a) (arg_ascii a) (arg_async_render a)
                     self_total st false false desc_bytes None 0)
  else
    ret (mk_asmqdm (arg_iterable a) (arg_desc a) (arg_leave a)
                   (arg_disable a) (arg_ascii a) (arg_async_render a)
                   self_total None false false None None 0).

(** The methods run on one instance and the process-wide state. *)
Record config : Type := mk_config { self : asmqdm; wld : world }.

Definition method (A : Type) : Type := ST config A.

(** Run code of [_ffi] from a method. *)
Definition lift {A} (m : ST world A) : method A :=
  fun c =>
    let (r, w') := m (wld c) in (r, mk_config (self c) w').

(** [self.x = v] *)
Definition assign (f : asmqdm -> asmqdm) : method unit :=
  modify (fun c => mk_config (f (self c)) (wld c)).

(** Read an attribute of [self]. *)
Definition attr {A} (f : asmqdm -> A) : method A :=
  fun c => (Return (f (self c)), c).

(** [self._state is not None and not self._closed] *)
Definition live (s : asmqdm) : bool :=
  match _state s with
  | Some _ => negb (_closed s)
  | None => false
  end.

Definition update (k : Z) : method unit :=
  s <- attr id ;;
  if live s then
    if _is_async s then
      r <- lift (_ffi.update_async (_state s) k) ;;
      assign (set_n r)
    else
      r <- lift (_ffi.update (_state s) k) ;;
      assign (set_n r)
  else
    assign (set_n (n s + k)).

Definition close : method unit :=
  s <- attr id ;;
  if live s then
    (if _is_async s then lift (_ffi.close_async (_state s))
     else lift (_ffi.close (_state s))) ;;
    assign (set__state None) ;;
    assign (set__closed true)
  else
    ret tt.

Definition __iter__ : method unit :=
  s <- attr id ;;
  match iterable s with
  | Some it => assign (set__iterator (Some (items it)))
  | None => ret tt
  end.

(** The wrapped iterator has moved on and has [rest] left.  When the
    iterable is its own iterator, [self._iterator] and [self.iterable]
    are one object, and the iterable has that much left too. *)
Definition advance (rest : list T) (s : asmqdm) : asmqdm :=
  match iterable s with
  | Some it =>
      if one_shot it
      then set_iterable (Some (mk_iterable rest (has_len it) true))
                        (set__iterator (Some rest) s)
      else set__iterator (Some rest) s
  | None => set__iterator (Some rest) s
  end.

(** [next(self._iterator)] on the wrapped iterator. *)
Definition next_item (rest : list T) : method T :=
  match rest with
  | [] => raise StopIteration
  | item :: rest' => assign (advance rest') ;; ret item
  end.

Definition __next__ : method T :=
  s <- attr id ;;
  match _iterator s with
  | None => raise StopIteration
  | Some rest =>
      try_except_StopIteration
        (item <- next_item rest ;;
         update 1 ;;
         ret item)
        (close ;; raise StopIteration)
  end.

Definition __enter__ : method unit := ret tt.

(** Returns [False]: the exception of the block, if any, propagates. *)
Definition __exit__ : method bool :=
  close ;; ret false.

Definition __len__ : method Z := attr total.

Definition refresh : method unit :=
  s <- attr id ;;
  if live s then lift (_ffi.render (_state s)) else ret tt.

(** [desc.encode('utf-8') if desc else b""] *)
Definition description_bytes (d : option string) : ST world pybytes :=
  match d with
  | Some s => if str_truthy s then encode s else ret empty_bytes
  | None => ret empty_bytes
  end.

(** Line 228: the new bytes object replaces the one [self._desc_bytes]
    referred to. *)
Definition rebind_desc_bytes (d : option string) : method pybytes :=
  b <- lift (description_bytes d) ;;
  assign (set__desc_bytes (Some b)) ;;
  ret b.

Definition set_description (d : option string) : method unit :=
  assign (set_desc d) ;;
  s <- attr id ;;
  if live s then
    b <- rebind_desc_bytes d ;;
    lift (_ffi.set_description (_state s) b)
  else
    ret tt.

Definition set_postfix : method unit := ret tt.

(** [format_dict]: the values under 'n', 'total' and 'desc'. *)
Definition format_dict : method (Z * Z * option string) :=
  s <- attr id ;; ret (n s, total s, desc s).


(** *** How the instance is driven *)

(** [for item in self: ...]: the loop calls [iter(self)], then
    [next(self)] until it raises StopIteration.  [brk] is the number of
    elements after which the body executes [break]; a loop whose body
    never breaks is one with [brk] larger than the number of elements.
    The result is the list of the elements the body received. *)
Fixpoint for_body (brk : nat) : method (list T) :=
  match brk with
  | O => ret []
  | S brk' =>
      fun c =>
        match __next__ c with
        | (Return item, c') =>
            (more <- for_body brk' ;;
             ret (item :: more)) c'
        | (Raise StopIteration, c') => (Return [], c')
        | (Raise e, c') => (Raise e, c')
        end
  end.

Definition for_loop (brk : nat) : method (list T) :=
  __iter__ ;; for_body brk.

(** [k] calls [self.update(1)] in a row. *)
Fixpoint updates_by_one (k : nat) : method unit :=
  match k with
  | O => ret tt
  | S k' => update 1 ;; updates_by_one k'
  end.

(** [for k in ks: self.update(k)] *)
Fixpoint updates (ks : list Z) : method unit :=
  match ks with
  | [] => ret tt
  | k :: ks' => update k ;; updates ks'
  end.

(** [k] calls [self.update(1)] in a row, then one call [self.close()]. *)
Fixpoint updates_then_close (k : nat) : method unit :=
  match k with
  | O => close
  | S k' => update 1 ;; updates_then_close k'
  end.

(** The operations a caller can apply to an instance. *)
Inductive op : Type :=
| Op_iter
| Op_next
| Op_enter
| Op_exit
| Op_len
| Op_update (k : Z)
| Op_close
| Op_refresh
| Op_set_description (d : option string)
| Op_set_postfix
| Op_format_dict.

Definition forget {A} (m : method A) : method unit := m ;; ret tt.

Definition run_op (o : op) : method unit :=
  match o with
  | Op_iter => __iter__
  | Op_next => forget __next__
  | Op_enter => __enter__
  | Op_exit => forget __exit__
  | Op_len => forget __len__
  | Op_update k => update k
  | Op_close => close
  | Op_refresh => refresh
  | Op_set_description d => set_description d
  | Op_set_postfix => set_postfix
  | Op_format_dict => forget format_dict
  end.

(** The configuration after an operation, whether it returned or raised
    (a caller may catch the exception and go on). *)
Definition after_op (c : config) (o : op) : config := snd (run_op o c).

Definition after_ops (c : config) (os : list op) : config :=
  fold_left after_op os c.

End WithEngine.
End core.

(** ** A reference engine *)

(** Modelled from the spec: the engine is the assembly library, which is
    not among the Python sources.  This is the CounterStore of the
    specification (section 4.1): [create] allocates a state whose count is
    0, [update] adds the increment and returns the new count,
    [set_description] installs the buffer it is given, [close] finalizes.
    Rendering and the render thread are left out; handles are the
    positions in the store, from 1. *)
Module RefEngine.

Record bar : Type := mk_bar {
  bar_total : Z;
  bar_count : Z;
  bar_desc : option pybytes;
  bar_flags : Z;
  bar_closed : bool;
}.

Definition store : Type := list bar.

Fixpoint on_bar (i : nat) (f : bar -> bar) (st : store) : store :=
  match st, i with
  | [], _ => []
  | b :: st', O => f b :: st'
  | b :: st', S i' => b :: on_bar i' f st'
  end.

Definition slot (h : option handle) : nat :=
  match h with Some a => Z.to_nat (a - 1) | None => 0 end.

Definition valid (h : option handle) (st : store) : bool :=
  match h with
  | Some a => (1 <=? a) && (a <=? Z.of_nat (List.length st))
  | None => false
  end.

Definition create (total : Z) (desc : option pybytes) (desc_len flags : Z)
  (st : store) : option handle * store :=
  (Some (Z.of_nat (List.length st) + 1),
   st ++ [mk_bar total 0 desc flags false]).

Definition add (k : Z) (b : bar) : bar :=
  mk_bar (bar_total b) (bar_count b + k) (bar_desc b) (bar_flags b)
         (bar_closed b).

Definition update (h : option handle) (k : Z) (st : store) : Z * store :=
  if valid h st then
    let st' := on_bar (slot h) (add k) st in
    (match nth_error st' (slot h) with
     | Some b => bar_count b
     | None => 0
     end, st')
  else (0, st).

Definition install (d : pybytes) (b : bar) : bar :=
  mk_bar (bar_total b) (bar_count b) (Some d) (bar_flags b) (bar_closed b).

Definition set_description (h : option handle) (d : pybytes) (desc_len : Z)
  (st : store) : store :=
  if valid h st then on_bar (slot h) (install d) st else st.

Definition finalize (b : bar) : bar :=
  mk_bar (bar_total b) (bar_count b) (bar_desc b) (bar_flags b) true.

Definition close (h : option handle) (st : store) : store :=
  if valid h st then on_bar (slot h) finalize st else st.

Definition render (h : option handle) (st : store) : store := st.

#[export] Instance engine : Engine := {|
  eng := store;
  progress_bar_create := create;
  progress_bar_update := update;
  progress_bar_render := render;
  progress_bar_close := close;
  progress_bar_set_description := set_description;
  progress_bar_create_async := create;
  progress_bar_update_async := update;
  progress_bar_close_async := close;
|}.

(** A fresh process: the library is installed and not loaded yet. *)
Definition fresh_world : @_ffi.world engine :=
  _ffi.mk_world true false [] [] 1.

(** A process in which the library cannot be found. *)
Definition no_lib_world : @_ffi.world engine :=
  _ffi.mk_world false false [] [] 1.

End RefEngine.

(** ** Instances used in examples *)

Module Scenario.
Import RefEngine.

Definition config : Type := @core.config engine nat.

(** [asmqdm([10, 20, 30], desc="Load")] in a fresh process. *)
Definition list_args : @core.init_args nat :=
  core.mk_args (Some (core.mk_iterable [10; 20; 30]%nat true false))
               (Some "Load"%string) None true false false false.

Definition load_bytes : pybytes :=
  mk_bytes 1 (list_byte_of_string "Load").

Definition list_bar : config :=
  core.mk_config
    (core.mk_asmqdm (Some (core.mk_iterable [10; 20; 30]%nat true false))
                    (Some "Load"%string) true false false false 3
                    (Some 1) false false (Some load_bytes) None 0)
    (_ffi.mk_world true true
                   [mk_bar 3 0 (Some load_bytes) 1 false]
                   [Call_create 3 (Some load_bytes) 4 1 (Some 1)] 2).

(** [asmqdm(total=100, disable=True)] in a process without the library. *)
Definition disabled_args : @core.init_args nat :=
  core.mk_args None None (Some 100) true true false false.

(** [asmqdm(total=10, desc="Loading", async_render=True)] in a fresh
    process. *)
Definition loading_args : @core.init_args nat :=
  core.mk_args None (Some "Loading"%string) (Some 10) true false false true.

Definition loading_bytes : pybytes :=
  mk_bytes 1 (list_byte_of_string "Loading").

Definition done_bytes : pybytes :=
  mk_bytes 2 (list_byte_of_string "Done").

Definition loading_bar : config :=
  core.mk_config
    (core.mk_asmqdm None (Some "Loading"%string) true false false true 10
                    (Some 1) false true (Some loading_bytes) None 0)
    (_ffi.mk_world true true
                   [mk_bar 10 0 (Some loading_bytes) 33 false]
                   [Call_create_async 10 (Some loading_bytes) 7 33 (Some 1)]
                   2).

(** [asmqdm([10, 20, 30], disable=True)] *)
Definition disabled_list_args : @core.init_args nat :=
  core.mk_args (Some (core.mk_iterable [10; 20; 30]%nat true false))
               None None true true false false.

(** The keyword arguments of [trange(4, disable=True)]. *)
Definition quiet_kwargs : @core.init_args Z :=
  core.mk_args None None None true true false false.

(** [asmqdm(total=-1)] in a fresh process. *)
Definition negative_total_args : @core.init_args nat :=
  core.mk_args None None (Some (-1)) true false false false.

(** [asmqdm([])] in a fresh process. *)
Definition empty_list_args : @core.init_args nat :=
  core.mk_args (Some (core.mk_iterable [] true false))
               None None true false false false.

(** [asmqdm(g, desc="Load")] in a fresh process, [g] a generator that has
    10, 20 and 30 left to yield. *)
Definition generator_args : @core.init_args nat :=
  core.mk_args (Some (core.mk_iterable [10; 20; 30]%nat false true))
               (Some "Load"%string) None true false false false.

Definition generator_bar : config :=
  core.mk_config
    (core.mk_asmqdm (Some (core.mk_iterable [10; 20; 30]%nat false true))
                    (Some "Load"%string) true false false false 0
                    (Some 1) false false (Some load_bytes) None 0)
    (_ffi.mk_world true true
                   [mk_bar 0 0 (Some load_bytes) 1 false]
                   [Call_create 0 (Some load_bytes) 4 1 (Some 1)] 2).

(** The [str] made of the lone surrogate U+D800, as ["\ud800"] or as
    [os.fsdecode] gives it for a file name that is not UTF-8. *)
Definition lone_surrogate : string :=
  String (ascii_of_N 237)
         (String (ascii_of_N 160) (String (ascii_of_N 128) EmptyString)).

End Scenario.

(** ** Reading the log and the state *)

Import core.

Section Observations.
Context {E : Engine}.
Context {T : Type}.

Local Abbreviation world := (@_ffi.world E).
Local Abbreviation config := (@core.config E T).

(** The library is loaded or can be: no call of [_ffi] raises OSError. *)
Definition loadable (w : world) : Prop :=
  _ffi._lib w = true \/ _ffi.lib_found w = true.

(** The process-wide state once [_get_lib] has returned. *)
Definition loaded (w : world) : world :=
  if _ffi._lib w then w else _ffi.set_lib_loaded w.

(** [sum(ks)] *)
Definition sum_of (ks : list Z) : Z := fold_right Z.add 0 ks.

(** The flags word of a call that creates a state. *)
Definition sent_flags (c : ffi_call) : option Z :=
  match c with
  | Call_create _ _ _ flags _ => Some flags
  | Call_create_async _ _ _ flags _ => Some flags
  | _ => None
  end.

(** The call does not transmit the DISABLE bit. *)
Definition no_disable_bit (c : ffi_call) : Prop :=
  match sent_flags c with
  | Some flags => Z.land flags _ffi.FLAG_DISABLE = 0
  | None => True
  end.

(** The state a call operates on; [None] for the calls that create one. *)
Definition call_state (c : ffi_call) : option (option handle) :=
  match c with
  | Call_update st _ _ => Some st
  | Call_render st => Some st
  | Call_close st => Some st
  | Call_set_description st _ _ => Some st
  | Call_update_async st _ _ => Some st
  | Call_close_async st => Some st
  | Call_create _ _ _ _ _ => None
  | Call_create_async _ _ _ _ _ => None
  end.

(** The invariant of the wrapper: a state is held only by an instance that
    is neither disabled nor closed. *)
Definition guarded (s : @asmqdm T) : Prop :=
  _state s <> None -> disable s = false /\ _closed s = false.

(** What one step of the wrapper may do, from configuration [c] to [c']:
    it keeps [disable]; an instance that holds a state afterwards held
    the same one before and was no more closed then than now; an
    instance that is not live stays so and leaves the process-wide state
    alone; and every boundary call is made on a live instance, on the
    state that it holds. *)
Definition effect (c c' : config) : Prop :=
  disable (self c') = disable (self c) /\
  (_state (self c') <> None ->
   _state (self c') = _state (self c) /\
   _closed (self c') = _closed (self c)) /\
  (live (self c) = false -> wld c' = wld c /\ live (self c') = false) /\
  exists new : list ffi_call,
    _ffi.calls (wld c') = _ffi.calls (wld c) ++ new /\
    Forall (fun call => live (self c) = true /\
                        call_state call = Some (_state (self c))) new.

(** The configuration with the wrapped iterator at another position. *)
Definition with_iterator (rest : option (list T)) (c : config) : config :=
  mk_config (set__iterator rest (self c)) (wld c).

(** The configuration once the wrapped iterator has moved on and has
    [rest] left. *)
Definition moved (rest : list T) (c : config) : config :=
  mk_config (advance rest (self c)) (wld c).

(** [self._iterator] has [rest] left, and so has the iterable when it is
    its own iterator: the state that [__iter__] and [__next__] leave. *)
Definition in_step (rest : list T) (c : config) : Prop :=
  _iterator (self c) = Some rest /\
  forall it, iterable (self c) = Some it -> one_shot it = true ->
             items it = rest.

(** An instance that holds a state has the library at hand: so it is
    for every instance that [__init__] returned, and for every instance
    that holds no state. *)
Definition usable (c : config) : Prop :=
  live (self c) = true -> loadable (wld c).

(** The description can be encoded: it holds no lone surrogate. *)
Definition encodable (d : option string) : Prop :=
  match d with
  | Some str => has_surrogate str = false
  | None => True
  end.

Definition same_state (a b : option handle) : bool :=
  match a, b with
  | Some x, Some y => x =? y
  | None, None => true
  | _, _ => false
  end.

(** The description buffer whose address the engine holds for the state
    [st] after the calls of [log]: the one given when the state was
    created, until a later [set_description] gives another.  [cur] is the
    buffer held before [log]. *)
Fixpoint installed_desc (st : option handle) (log : list ffi_call)
  (cur : option pybytes) : option pybytes :=
  match log with
  | [] => cur
  | Call_create _ d _ _ r :: log' =>
      installed_desc st log' (if same_state r st then d else cur)
  | Call_create_async _ d _ _ r :: log' =>
      installed_desc st log' (if same_state r st then d else cur)
  | Call_set_description st' d _ :: log' =>
      installed_desc st log' (if same_state st' st then Some d else cur)
  | _ :: log' => installed_desc st log' cur
  end.

(** The wrapper keeps the bytes object [b] alive: [self._desc_bytes] is
    the one reference that it keeps to a description buffer, and an
    object without a reference is released. *)
Definition kept_alive (s : @asmqdm T) (b : pybytes) : Prop :=
  _desc_bytes s = Some b.

(** [set_description] up to and including line 228, that is without the
    call of line 229; the result is the argument list of that call. *)
Definition set_description_before_call (d : option string)
  : @method E T (option (option handle * pybytes)) :=
  assign (set_desc d) ;;
  s <- attr id ;;
  if live s then
    b <- rebind_desc_bytes d ;;
    ret (Some (_state s, b))
  else
    ret None.

(** A method returns, or raises OSError: it never raises StopIteration. *)
Definition plain {A} (o : outcome A) : Prop :=
  match o with
  | Raise StopIteration => False
  | _ => True
  end.

(** What holds of every configuration that the operations reach from a
    new instance. *)
Definition reached (a : @init_args T) (w : world) (c : config) : Prop :=
  guarded (self c) /\
  disable (self c) = arg_disable a /\
  (arg_disable a = true -> wld c = w) /\
  exists new : list ffi_call,
    _ffi.calls (wld c) = _ffi.calls w ++ new /\ Forall no_disable_bit new.

End Observations.

(** ** _find_library, location by location *)

(** [_ffi._find_library] above keeps of the file system only whether a
    location exists.  Here the function is embedded with its list of
    locations.  A path is the list of its components from the root;
    [exists_] is [Path.exists] and [resolve] is [Path.resolve] of the
    file system at hand; [file] is [__file__]. *)
Module Loader.

Definition path : Type := list string.

(** [p.parent]; the parent of the root is the root. *)
Definition parent (p : path) : path := removelast p.

(** [p / name] *)
Definition child (p : path) (name : string) : path := p ++ [name].

Definition locations (file : path) : list path :=
  [ child (parent file) "libasmqdm.so";
    child (child (parent (parent (parent (parent file)))) "build")
          "libasmqdm.so";
    ["usr"; "local"; "lib"; "libasmqdm.so"]%string;
    ["usr"; "lib"; "libasmqdm.so"]%string ].

(** [for loc in locations: if loc.exists(): return str(loc.resolve())],
    then [raise OSError]. *)
Fixpoint first_found (exists_ : path -> bool) (resolve : path -> path)
  (locs : list path) : outcome path :=
  match locs with
  | [] => Raise OSError
  | loc :: locs' =>
      if exists_ loc then Return (resolve loc)
      else first_found exists_ resolve locs'
  end.

Definition _find_library (exists_ : path -> bool) (resolve : path -> path)
  (file : path) : outcome path :=
  first_found exists_ resolve (locations file).

End Loader.

(** ** range and trange *)

Module Range.

(** [len(range(start, stop, step))] for a step that is not 0. *)
Definition range_len (start stop step : Z) : Z :=
  if 0 <? step then
    if start <? stop then (stop - start - 1) / step + 1 else 0
  else
    if stop <? start then (start - stop - 1) / (- step) + 1 else 0.

(** [list(range(start, stop, step))] *)
Definition range_items (start stop step : Z) : list Z :=
  map (fun i => start + Z.of_nat i * step)
      (seq 0 (Z.to_nat (range_len start stop step))).

(** [sys.maxsize], the largest length that [len] returns. *)
Definition sys_maxsize : Z := 2 ^ 63 - 1.

(** [range] applied to integers: one to three arguments, the step not 0,
    give the range object, here its start, stop and step; [None] where
    Python raises (TypeError on the number of arguments, ValueError on a
    step of 0). *)
Definition range (args : list Z) : option (Z * Z * Z) :=
  match args with
  | [stop] => Some (0, stop, 1)
  | [start; stop] => Some (start, stop, 1)
  | [start; stop; step] =>
      if step =? 0 then None else Some (start, stop, step)
  | _ => None
  end.

Section WithEngine.
Context {E : Engine}.

(** [trange]: [asmqdm] over the [range] of the positional arguments, with
    the keyword arguments passed on.  The keyword arguments are those of
    [kw] other than the iterable; passing [iterable] as a keyword too is
    a TypeError.  A range has a [__len__], and [len] of a range of more
    than [sys.maxsize] elements raises OverflowError: [__init__] calls
    it, at line 111, when no total is given, before anything else
    happens. *)
Definition trange (args : list Z) (kw : @core.init_args Z)
  : option (ST (@_ffi.world E) (@core.asmqdm Z)) :=
  match core.arg_iterable kw, range args with
  | None, Some (start, stop, step) =>
      let init :=
        core.__init__
          (core.mk_args
             (Some (core.mk_iterable (range_items start stop step)
                                     true false))
             (core.arg_desc kw) (core.arg_total kw)
             (core.arg_leave kw) (core.arg_disable kw)
             (core.arg_ascii kw) (core.arg_async_render kw)) in
      Some (fun w =>
              match core.arg_total kw with
              | None =>
                  if sys_maxsize <? range_len start stop step
                  then (Raise OverflowError, w)
                  else init w
              | Some _ => init w
              end)
  | _, _ => None
  end.

End WithEngine.
End Range.

(** ** What one operation did *)

Section Steps.
Context {E : Engine}.
Context {T : Type}.

Local Abbreviation world := (@_ffi.world E).
Local Abbreviation config := (@core.config E T).

(** The world after one call of the loaded library. *)
Definition engine_step {A} (f : eng -> A * eng) (log : A -> ffi_call)
  (w : world) : world :=
  _ffi.mk_world (_ffi.lib_found w) (_ffi._lib w) (snd (f (_ffi.engine w)))
                (_ffi.calls w ++ [log (fst (f (_ffi.engine w)))])
                (_ffi.next_id w).

(** The call by which the instance [s] updates, closes and was created:
    the variant of its mode. *)
Definition update_call (s : @asmqdm T) (k r : Z) : ffi_call :=
  if _is_async s then Call_update_async (_state s) (c_int64 k) r
  else Call_update (_state s) (c_int64 k) r.

Definition close_call (s : @asmqdm T) : ffi_call :=
  if _is_async s then Call_close_async (_state s) else Call_close (_state s).

Definition create_call (async : bool) (total : Z) (d : option pybytes)
  (flags : Z) (st : option handle) : ffi_call :=
  if async then
    Call_create_async (c_int64 total) d (c_int64 (_ffi.desc_len_of d)) flags st
  else
    Call_create (c_int64 total) d (c_int64 (_ffi.desc_len_of d)) flags st.

(** The call belongs to the mode [async]; [render] and [set_description]
    are shared by both modes. *)
Definition mode_call (async : bool) (c : ffi_call) : Prop :=
  match c with
  | Call_create _ _ _ _ _ | Call_update _ _ _ | Call_close _ => async = false
  | Call_create_async _ _ _ _ _ | Call_update_async _ _ _
  | Call_close_async _ => async = true
  | Call_render _ | Call_set_description _ _ _ => True
  end.

(** The flags word of an instance that is not disabled. *)
Definition enabled_flags (leave ascii_only async : bool) : Z :=
  (if leave then 1 else 0) + (if ascii_only then 4 else 0)
  + (if async then 32 else 0).

(** An instance that holds a state has the library loaded. *)
Definition ready (c : config) : Prop :=
  live (self c) = true -> _ffi._lib (wld c) = true.

(** The attributes that decide whether and how the engine is called. *)
Definition same_core (s s' : @asmqdm T) : Prop :=
  disable s' = disable s /\ _state s' = _state s /\
  _closed s' = _closed s /\ _is_async s' = _is_async s /\
  total s' = total s.

(** What an operation did to the engine. *)
Inductive happened : Type :=
| Nothing
| Updated (k r : Z)
| Closed
| Rendered
| Described (b : pybytes).

(** [did h c c']: the operation that took [c] to [c'] made the calls of
    [h], and changed the instance accordingly. *)
Definition did (h : happened) (c c' : config) : Prop :=
  match h with
  | Nothing =>
      wld c' = wld c /\ same_core (self c) (self c') /\
      _desc_bytes (self c') = _desc_bytes (self c)
  | Updated k r =>
      live (self c) = true /\
      _ffi.calls (wld c') = _ffi.calls (wld c) ++ [update_call (self c) k r] /\
      _ffi._lib (wld c') = true /\
      same_core (self c) (self c') /\
      _desc_bytes (self c') = _desc_bytes (self c) /\
      n (self c') = r
  | Closed =>
      live (self c) = true /\
      _ffi.calls (wld c') = _ffi.calls (wld c) ++ [close_call (self c)] /\
      _ffi._lib (wld c') = true /\
      _state (self c') = None /\ _closed (self c') = true /\
      disable (self c') = disable (self c) /\
      _is_async (self c') = _is_async (self c) /\
      total (self c') = total (self c) /\
      _desc_bytes (self c') = _desc_bytes (self c) /\
      n (self c') = n (self c)
  | Rendered =>
      live (self c) = true /\
      _ffi.calls (wld c')
      = _ffi.calls (wld c) ++ [Call_render (_state (self c))] /\
      _ffi._lib (wld c') = true /\
      self c' = self c
  | Described b =>
      live (self c) = true /\
      _ffi.calls (wld c')
      = _ffi.calls (wld c)
          ++ [Call_set_description (_state (self c)) b
                                   (c_int64 (bytes_len b))] /\
      _ffi._lib (wld c') = true /\
      same_core (self c) (self c') /\
      _desc_bytes (self c') = Some b /\
      n (self c') = n (self c)
  end.

(** What holds between the operations on an instance whose creation
    found the log [base] and chose the mode [async]: the mode is kept,
    a held state means a loaded library, every call since the creation
    is of the mode, and the description buffer that the engine holds is
    the one that [self._desc_bytes] keeps alive. *)
Definition steady (base : list ffi_call) (async : bool) (c : config) : Prop :=
  _is_async (self c) = async /\
  ready c /\
  exists log : list ffi_call,
    _ffi.calls (wld c) = base ++ log /\
    Forall (mode_call async) log /\
    (live (self c) = true ->
     installed_desc (_state (self c)) log None = _desc_bytes (self c)).

End Steps.

(** ** Properties *)

Section Properties.
Context {E : Engine}.
Context {T : Type}.

Local Abbreviation world := (@_ffi.world E).
Local Abbreviation config := (@core.config E T).
Local Abbreviation asmqdm := (@core.asmqdm T).
Local Abbreviation init_args := (@core.init_args T).

Lemma get_lib_loadable (w : world) :
  loadable w -> _ffi._get_lib w = (Return tt, loaded w).
Proof.
  unfold loadable, loaded, _ffi._get_lib, _ffi._find_library, bind, modify.
  intros [H | H].
  - now rewrite H.
  - destruct (_ffi._lib w); [reflexivity | now rewrite H].
Qed.

Lemma loaded_calls (w : world) : _ffi.calls (loaded w) = _ffi.calls w.
Proof. unfold loaded. now destruct (_ffi._lib w). Qed.

Lemma loaded_engine (w : world) : _ffi.engine (loaded w) = _ffi.engine w.
Proof. unfold loaded. now destruct (_ffi._lib w). Qed.

(** A method that finds the instance not live leaves it alone. *)
Lemma close_not_live (c : config) :
  live (self c) = false -> close c = (Return tt, c).
Proof.
  intros H. unfold close, bind, attr, id. cbn. now rewrite H.
Qed.

Lemma update_not_live (c : config) (k : Z) :
  live (self c) = false ->
  update k c = (Return tt, mk_config (set_n (n (self c) + k) (self c)) (wld c)).
Proof.
  intros H. unfold update, bind, attr, id. cbn. now rewrite H.
Qed.

(** After [close] has returned the instance is not live. *)
Lemma close_returns_not_live (c c1 : config) :
  close c = (Return tt, c1) -> live (self c1) = false.
Proof.
  unfold close, bind, attr, id. cbn.
  destruct (live (self c)) eqn:L.
  - destruct (_is_async (self c)); unfold lift;
      match goal with
      | |- context [?f (_state (self c)) (wld c)] =>
          destruct (f (_state (self c)) (wld c)) as [[[] | e] w']
      end; cbn; intros H; inversion H; reflexivity.
  - intros H; inversion H; subst. exact L.
Qed.

(** C2. [close] is idempotent: once a first call to [close] has returned,
    a second call returns normally and leaves the instance ([_state] and
    [_closed] included) and the process-wide state as they are; the log
    of boundary calls is part of that state, so no boundary call is
    made. *)
Theorem close_idempotent (c c1 : config) :
  close c = (Return tt, c1) ->
  close c1 = (Return tt, c1).
Proof.
  intros H. apply close_not_live. exact (close_returns_not_live c c1 H).
Qed.

(** C9. After [close] has returned, [update(k)] returns normally, makes no
    boundary call (the process-wide state and its log are unchanged) and
    adds exactly [k] to the attribute [n]. *)
Theorem update_after_close (c c1 : config) (k : Z) :
  close c = (Return tt, c1) ->
  update k c1
  = (Return tt, mk_config (set_n (n (self c1) + k) (self c1)) (wld c1)).
Proof.
  intros H. apply update_not_live. exact (close_returns_not_live c c1 H).
Qed.

Lemma foreign_run {A} (f : eng -> A * eng) (log : A -> ffi_call) (w : world) :
  _ffi.foreign f log w
  = (Return (fst (f (_ffi.engine w))),
     _ffi.mk_world (_ffi.lib_found w) (_ffi._lib w) (snd (f (_ffi.engine w)))
                   (_ffi.calls w ++ [log (fst (f (_ffi.engine w)))])
                   (_ffi.next_id w)).
Proof. unfold _ffi.foreign. now destruct (f (_ffi.engine w)). Qed.

(** C7. The flags word that reaches the engine is the bitwise OR of
    LEAVE=0x01 when [leave] is set, DISABLE=0x02 when [disable] is set and
    ASCII=0x04 when [ascii_only] is set; [create_async] adds ASYNC=0x20
    and [create] does not; neither sets bit 0x08 or bit 0x10. *)
Theorem flags_word (total : Z) (desc_bytes : option pybytes)
  (leave disable ascii_only : bool) (w : world) :
  loadable w ->
  let word := Z.lor (Z.lor (if leave then 0x01 else 0)
                           (if disable then 0x02 else 0))
                    (if ascii_only then 0x04 else 0) in
  (exists st w',
      _ffi.create total desc_bytes leave disable ascii_only w
      = (Return st, w') /\
      _ffi.calls w'
      = _ffi.calls w
          ++ [Call_create (c_int64 total) desc_bytes
                          (c_int64 (_ffi.desc_len_of desc_bytes)) word st]) /\
  (exists st w',
      _ffi.create_async total desc_bytes leave disable ascii_only w
      = (Return st, w') /\
      _ffi.calls w'
      = _ffi.calls w
          ++ [Call_create_async (c_int64 total) desc_bytes
                                (c_int64 (_ffi.desc_len_of desc_bytes))
                                (Z.lor word 0x20) st]) /\
  Z.land word 0x20 = 0 /\
  Z.land (Z.lor word 0x20) 0x20 = 0x20 /\
  Z.land word 0x08 = 0 /\ Z.land word 0x10 = 0 /\
  Z.land (Z.lor word 0x20) 0x08 = 0 /\ Z.land (Z.lor word 0x20) 0x10 = 0.
Proof.
  intros L word.
  assert (Hc : c_uint64 (_ffi.create_flags leave disable ascii_only) = word)
    by (subst word; destruct leave, disable, ascii_only; reflexivity).
  assert (Ha : c_uint64 (_ffi.create_async_flags leave disable ascii_only)
               = Z.lor word 0x20)
    by (subst word; destruct leave, disable, ascii_only; reflexivity).
  split; [| split].
  - unfold _ffi.create, bind. rewrite (get_lib_loadable w L), foreign_run.
    do 2 eexists. split; [reflexivity |]. cbn [_ffi.calls].
    now rewrite loaded_calls, Hc.
  - unfold _ffi.create_async, bind.
    rewrite (get_lib_loadable w L), foreign_run.
    do 2 eexists. split; [reflexivity |]. cbn [_ffi.calls].
    now rewrite loaded_calls, Ha.
  - subst word. destruct leave, disable, ascii_only; repeat split; reflexivity.
Qed.

(** [__init__] either raises and builds nothing, or returns the instance
    described by its arguments, with the count at 0. *)
Lemma init_returns (a : init_args) (w w' : world) (s : asmqdm) :
  __init__ a w = (Return s, w') ->
  total s = init_total a /\ n s = 0 /\ _closed s = false /\
  disable s = arg_disable a /\ _iterator s = None /\
  iterable s = arg_iterable a /\
  (arg_disable a = true -> _state s = None /\ w' = w).
Proof.
  unfold __init__.
  destruct (arg_disable a) eqn:D; cbn [negb].
  - unfold ret. intros H; inversion H; subst; cbn. repeat split; reflexivity.
  - unfold bind.
    destruct (init_desc_bytes (arg_desc a) w) as [[db | e] w1]; [| discriminate].
    destruct (arg_async_render a).
    + destruct (_ffi.create_async _ _ _ _ _ w1) as [[st | e] w2];
        [| discriminate].
      unfold ret. intros H; inversion H; subst; cbn.
      repeat split; try reflexivity; discriminate.
    + destruct (_ffi.create _ _ _ _ _ w1) as [[st | e] w2]; [| discriminate].
      unfold ret. intros H; inversion H; subst; cbn.
      repeat split; try reflexivity; discriminate.
Qed.

(** C8. Right after an instance has been created, whatever its total, and
    before any update, its count [n] is 0. *)
Theorem created_count_zero (a : init_args) (w w' : world) (s : asmqdm) :
  __init__ a w = (Return s, w') ->
  n s = 0.
Proof. intros H. apply (init_returns a w w' s H). Qed.

(** C6, as the code has it.  The total of a new instance: the argument
    [total] when it is given, taken as it is, so that the total is
    negative exactly when a negative total was given; otherwise the
    length of the wrapped iterable when it has one; otherwise 0, the
    value the code uses for an unknown length, which is therefore also
    the total of an empty sized iterable and of a given total 0.
    [__len__] returns the total. *)
Theorem created_total (a : init_args) (w w' : world) (s : asmqdm) :
  __init__ a w = (Return s, w') ->
  (forall t, arg_total a = Some t -> total s = t) /\
  (forall it, arg_total a = None -> arg_iterable a = Some it ->
              has_len it = true -> total s = len it) /\
  (arg_total a = None ->
   (forall it, arg_iterable a = Some it -> has_len it = false) ->
   total s = UNKNOWN_LENGTH) /\
  (total s < 0 <-> exists t, arg_total a = Some t /\ t < 0) /\
  __len__ (mk_config s w') = (Return (total s), mk_config s w').
Proof.
  intros H. destruct (init_returns a w w' s H) as [Ht _]. rewrite Ht.
  unfold init_total, UNKNOWN_LENGTH, len.
  repeat split.
  - intros t Hs. now rewrite Hs.
  - intros it Hn Hi Hl. now rewrite Hn, Hi, Hl.
  - intros Hn Hi. rewrite Hn. destruct (arg_iterable a) as [it |]; [| reflexivity].
    now rewrite (Hi it eq_refl).
  - destruct (arg_total a) as [t |]; [intros Hneg; now exists t |].
    destruct (arg_iterable a) as [it |]; [| lia].
    destruct (has_len it); lia.
  - intros (t & Hs & Hneg). now rewrite Hs.
  - unfold __len__, attr. cbn. now rewrite Ht.
Qed.

Lemma live_set_n (s : asmqdm) (k : Z) : live (set_n k s) = live s.
Proof. reflexivity. Qed.

(** On an instance that is not live a run of updates only adds up. *)
Lemma updates_not_live (ks : list Z) (c : config) :
  live (self c) = false ->
  updates ks c
  = (Return tt, mk_config (set_n (n (self c) + sum_of ks) (self c)) (wld c)).
Proof.
  revert c. induction ks as [| k ks IH]; intros [s w] L; cbn in L.
  - cbn. unfold ret. f_equal. f_equal. destruct s; unfold set_n, sum_of; cbn.
    now rewrite Z.add_0_r.
  - cbn [updates]. unfold bind at 1. rewrite update_not_live by exact L.
    rewrite IH by exact L. cbn. f_equal. f_equal.
    unfold set_n, sum_of; cbn. now rewrite Z.add_assoc.
Qed.

Lemma init_disabled (a : init_args) (w : world) :
  arg_disable a = true ->
  __init__ a w
  = (Return (mk_asmqdm (arg_iterable a) (arg_desc a) (arg_leave a)
                       (arg_disable a) (arg_ascii a) (arg_async_render a)
                       (init_total a) None false false None None 0), w).
Proof. intros D. unfold __init__. now rewrite D. Qed.

(** C1. An instance created with [disable=True]: whatever increments
    [k_1 .. k_m] are applied through [update], the count [n] ends at their
    sum; construction, updates and [close] leave the process-wide state
    untouched, so no boundary call is made and the engine, the only
    writer of progress-bar bytes, never runs; and [close] returns
    normally without changing anything. *)
Theorem disabled_counts (a : init_args) (w : world) (ks : list Z) :
  arg_disable a = true ->
  exists s0 s1 : asmqdm,
    __init__ a w = (Return s0, w) /\
    updates ks (mk_config s0 w) = (Return tt, mk_config s1 w) /\
    n s1 = sum_of ks /\
    close (mk_config s1 w) = (Return tt, mk_config s1 w).
Proof.
  intros D. do 2 eexists. split; [apply (init_disabled a w D) |].
  split; [apply updates_not_live; reflexivity |].
  split; [reflexivity |].
  apply close_not_live. reflexivity.
Qed.

(** *** The guard around the boundary calls *)

Lemma effect_refl (c : config) : effect c c.
Proof.
  repeat split; auto. exists []. now rewrite app_nil_r.
Qed.

Lemma live_holds_state (s : asmqdm) : live s = true -> _state s <> None.
Proof. unfold live. destruct (_state s); [discriminate | discriminate]. Qed.

Lemma effect_trans (c1 c2 c3 : config) :
  effect c1 c2 -> effect c2 c3 -> effect c1 c3.
Proof.
  intros (D1 & S1 & L1 & new1 & C1 & F1) (D2 & S2 & L2 & new2 & C2 & F2).
  split; [congruence |]. split; [| split].
  - intros H. destruct (S2 H) as [Hs Hc].
    assert (H' : _state (self c2) <> None) by congruence.
    destruct (S1 H') as [Hs' Hc']. split; congruence.
  - intros H. destruct (L1 H) as [Hw Hl]. destruct (L2 Hl) as [Hw' Hl'].
    split; congruence.
  - exists (new1 ++ new2). split; [rewrite C2, C1; now rewrite app_assoc |].
    apply Forall_app. split; [exact F1 |].
    apply Forall_forall. intros call Hin.
    rewrite Forall_forall in F2. destruct (F2 call Hin) as [Hl Hc].
    assert (Hl1 : live (self c1) = true).
    { destruct (live (self c1)) eqn:L; [reflexivity |].
      destruct (L1 eq_refl) as [_ Hl']. congruence. }
    split; [exact Hl1 |].
    destruct (S1 (live_holds_state _ Hl)) as [Hs _]. congruence.
Qed.

(** Writing an attribute other than [disable], [_state] and [_closed]. *)
Lemma assign_effect (f : asmqdm -> asmqdm) (c : config) :
  (forall s, disable (f s) = disable s /\ _state (f s) = _state s /\
             _closed (f s) = _closed s) ->
  effect c (mk_config (f (self c)) (wld c)).
Proof.
  intros H. destruct (H (self c)) as (Hd & Hs & Hc).
  split; [exact Hd |]. cbn. split; [| split].
  - intros _. now split.
  - intros L. split; [reflexivity |]. unfold live in *. now rewrite Hs, Hc.
  - exists []. now rewrite app_nil_r.
Qed.

(** A function of [_ffi] either raises OSError before anything happens or
    makes its one call. *)
Lemma ffi_cases {A} (f : eng -> A * eng) (log : A -> ffi_call) (w : world) :
  (_ffi._get_lib ;; _ffi.foreign f log) w = (Raise OSError, w) \/
  exists (r : A) (w' : world),
    (_ffi._get_lib ;; _ffi.foreign f log) w = (Return r, w') /\
    _ffi.calls w' = _ffi.calls w ++ [log r].
Proof.
  unfold bind, _ffi._get_lib, _ffi._find_library, modify.
  destruct (_ffi._lib w) eqn:Hl.
  - right. rewrite foreign_run. do 2 eexists. split; reflexivity.
  - unfold bind. destruct (_ffi.lib_found w) eqn:Hf.
    + right. rewrite foreign_run. do 2 eexists. split; reflexivity.
    + now left.
Qed.

Lemma lift_ffi_effect {A} (f : eng -> A * eng) (log : A -> ffi_call)
  (s : asmqdm) (w : world) :
  live s = true ->
  (forall r, call_state (log r) = Some (_state s)) ->
  lift (_ffi._get_lib ;; _ffi.foreign f log) (mk_config s w)
  = (Raise OSError, mk_config s w) \/
  exists (r : A) (w' : world),
    lift (_ffi._get_lib ;; _ffi.foreign f log) (mk_config s w)
    = (Return r, mk_config s w') /\
    effect (mk_config s w) (mk_config s w').
Proof.
  intros L Hlog. unfold lift. cbn [wld self].
  destruct (ffi_cases f log w) as [H | (r & w' & H & Hc)]; rewrite H.
  - now left.
  - right. exists r, w'. split; [reflexivity |].
    split; [reflexivity |]. cbn. split; [now split |].
    split; [congruence |].
    exists [log r]. split; [exact Hc |].
    constructor; [| constructor]. now split.
Qed.

Lemma update_outcome (k : Z) (c : config) :
  exists o c', update k c = (o, c') /\ plain o /\ effect c c'.
Proof.
  destruct c as [s w]. unfold update, bind, attr, id.
  cbn [self]. destruct (live s) eqn:L.
  - destruct (_is_async s).
    + destruct (lift_ffi_effect
                  (progress_bar_update_async (_state s) (c_int64 k))
                  (Call_update_async (_state s) (c_int64 k)) s w L
                  (fun _ => eq_refl)) as [H | (r & w' & H & Hef)];
        unfold _ffi.update_async; rewrite H.
      * do 2 eexists. split; [reflexivity |]. split; [exact I |].
        apply effect_refl.
      * do 2 eexists. split; [reflexivity |]. split; [exact I |].
        eapply effect_trans; [exact Hef |].
        apply (assign_effect (set_n r) (mk_config s w')).
        intros; repeat split.
    + destruct (lift_ffi_effect
                  (progress_bar_update (_state s) (c_int64 k))
                  (Call_update (_state s) (c_int64 k)) s w L
                  (fun _ => eq_refl)) as [H | (r & w' & H & Hef)];
        unfold _ffi.update; rewrite H.
      * do 2 eexists. split; [reflexivity |]. split; [exact I |].
        apply effect_refl.
      * do 2 eexists. split; [reflexivity |]. split; [exact I |].
        eapply effect_trans; [exact Hef |].
        apply (assign_effect (set_n r) (mk_config s w')).
        intros; repeat split.
  - do 2 eexists. split; [reflexivity |]. split; [exact I |].
    apply (assign_effect (set_n (n s + k)) (mk_config s w)).
    intros; repeat split.
Qed.

Lemma close_outcome (c : config) :
  exists o c', close c = (o, c') /\ plain o /\ effect c c'.
Proof.
  destruct c as [s w]. unfold close, bind, attr, id.
  cbn [self]. destruct (live s) eqn:L.
  - assert (Hfin : forall w', effect (mk_config s w')
                     (mk_config (set__closed true (set__state None s)) w')).
    { intros w'. split; [reflexivity |]. cbn. split; [congruence |].
      split; [congruence |]. exists []. now rewrite app_nil_r. }
    destruct (_is_async s).
    + destruct (lift_ffi_effect
                  (fun e => (tt, progress_bar_close_async (_state s) e))
                  (fun _ => Call_close_async (_state s)) s w L
                  (fun _ => eq_refl)) as [H | (r & w' & H & Hef)];
        unfold _ffi.close_async; rewrite H.
      * do 2 eexists. split; [reflexivity |]. split; [exact I |].
        apply effect_refl.
      * do 2 eexists. split; [reflexivity |]. split; [exact I |].
        eapply effect_trans; [exact Hef | apply Hfin].
    + destruct (lift_ffi_effect
                  (fun e => (tt, progress_bar_close (_state s) e))
                  (fun _ => Call_close (_state s)) s w L
                  (fun _ => eq_refl)) as [H | (r & w' & H & Hef)];
        unfold _ffi.close; rewrite H.
      * do 2 eexists. split; [reflexivity |]. split; [exact I |].
        apply effect_refl.
      * do 2 eexists. split; [reflexivity |]. split; [exact I |].
        eapply effect_trans; [exact Hef | apply Hfin].
  - do 2 eexists. split; [reflexivity |]. split; [exact I |].
    apply effect_refl.
Qed.

Lemma refresh_outcome (c : config) :
  exists o c', refresh c = (o, c') /\ plain o /\ effect c c'.
Proof.
  destruct c as [s w]. unfold refresh, bind, attr, id.
  cbn [self]. destruct (live s) eqn:L.
  - destruct (lift_ffi_effect
                (fun e => (tt, progress_bar_render (_state s) e))
                (fun _ => Call_render (_state s)) s w L
                (fun _ => eq_refl)) as [H | (r & w' & H & Hef)];
      unfold _ffi.render; rewrite H.
    + do 2 eexists. split; [reflexivity |]. split; [exact I |].
      apply effect_refl.
    + do 2 eexists. split; [reflexivity |]. split; [exact I | exact Hef].
  - do 2 eexists. split; [reflexivity |]. split; [exact I |].
    apply effect_refl.
Qed.

Lemma description_bytes_run (d : option string) (w : world) :
  (description_bytes d w = (Raise UnicodeEncodeError, w) /\ ~ encodable d) \/
  exists (b : pybytes) (w' : world),
    description_bytes d w = (Return b, w') /\
    _ffi.calls w' = _ffi.calls w /\
    _ffi._lib w' = _ffi._lib w /\
    _ffi.lib_found w' = _ffi.lib_found w /\
    encodable d.
Proof.
  unfold description_bytes, encode, ret, encodable.
  destruct d as [str |].
  - destruct (str_truthy str) eqn:Ht.
    + destruct (has_surrogate str) eqn:Hs.
      * left. split; [reflexivity | discriminate].
      * right. do 2 eexists. repeat split.
    + right. do 2 eexists. repeat split.
      destruct str; [reflexivity | discriminate Ht].
  - right. do 2 eexists. repeat split.
Qed.

Lemma set_description_outcome (d : option string) (c : config) :
  exists o c', set_description d c = (o, c') /\ plain o /\ effect c c'.
Proof.
  destruct c as [s w]. unfold set_description, bind, assign, modify, attr, id.
  cbn [self wld].
  assert (H0 : effect (mk_config s w) (mk_config (set_desc d s) w))
    by (apply (assign_effect (set_desc d) (mk_config s w));
        intros; repeat split).
  destruct (live (set_desc d s)) eqn:L.
  - unfold rebind_desc_bytes, bind, lift at 1, assign, modify, ret.
    cbn [self wld].
    destruct (description_bytes_run d w)
      as [[Hb _] | (b & w1 & Hb & Hc1 & _)]; rewrite Hb;
      [do 2 eexists; split; [reflexivity |]; split; [exact I | exact H0] |].
    cbn [self wld].
    assert (H1 : effect (mk_config (set_desc d s) w)
                   (mk_config (set__desc_bytes (Some b) (set_desc d s)) w1)).
    { split; [reflexivity |]. split; [intros _; split; reflexivity |].
      split; [intros Hl; cbn [self] in Hl; congruence |].
      exists []. cbn [wld]. now rewrite app_nil_r. }
    destruct (lift_ffi_effect
                (fun e => (tt, progress_bar_set_description
                                 (_state (set_desc d s)) b
                                 (c_int64 (bytes_len b)) e))
                (fun _ => Call_set_description (_state (set_desc d s)) b
                            (c_int64 (bytes_len b)))
                (set__desc_bytes (Some b) (set_desc d s)) w1 L
                (fun _ => eq_refl)) as [H | (r & w' & H & Hef)];
      unfold _ffi.set_description; rewrite H.
    + do 2 eexists. split; [reflexivity |]. split; [exact I |].
      eapply effect_trans; [exact H0 | exact H1].
    + do 2 eexists. split; [reflexivity |]. split; [exact I |].
      eapply effect_trans; [exact H0 |].
      eapply effect_trans; [exact H1 | exact Hef].
  - do 2 eexists. split; [reflexivity |]. split; [exact I | exact H0].
Qed.

Lemma advance_keeps (rest : list T) (s : asmqdm) :
  disable (advance rest s) = disable s /\
  _state (advance rest s) = _state s /\
  _closed (advance rest s) = _closed s.
Proof.
  unfold advance. destruct (iterable s) as [it |]; [destruct (one_shot it) |];
    repeat split.
Qed.

Lemma next_effect (c : config) : effect c (snd (__next__ c)).
Proof.
  destruct c as [s w]. unfold __next__, bind at 1, attr, id. cbn [self].
  destruct (_iterator s) as [rest |]; [| apply effect_refl].
  unfold try_except_StopIteration.
  destruct rest as [| item rest].
  - cbn [next_item]. unfold bind at 1, raise at 1.
    unfold bind.
    destruct (close_outcome (mk_config s w)) as (o & c' & H & _ & Hef).
    rewrite H. now destruct o.
  - cbn [next_item]. unfold bind, assign, modify, ret. cbn [self wld].
    assert (H0 : effect (mk_config s w) (mk_config (advance rest s) w))
      by (apply (assign_effect (advance rest) (mk_config s w));
          intros; apply advance_keeps).
    destruct (update_outcome 1 (mk_config (advance rest s) w))
      as (o & c' & H & Ho & Hef).
    rewrite H.
    destruct o as [[] | []]; cbn; try contradiction;
      exact (effect_trans _ _ _ H0 Hef).
Qed.

Lemma op_effect (c : config) (o : op) : effect c (after_op c o).
Proof.
  unfold after_op.
  destruct o; cbn [run_op]; unfold forget.
  - (* __iter__ *)
    destruct c as [s w]. unfold __iter__, bind, attr, id. cbn [self].
    destruct (iterable s) as [it |]; [| apply effect_refl].
    apply (assign_effect (set__iterator (Some (items it))) (mk_config s w)).
    intros; repeat split.
  - (* __next__ *)
    unfold bind. pose proof (next_effect c) as H.
    destruct (__next__ c) as [[x | e] c']; exact H.
  - apply effect_refl.
  - (* __exit__ *)
    unfold __exit__, bind.
    destruct (close_outcome c) as (o & c' & H & _ & Hef). rewrite H.
    now destruct o.
  - apply effect_refl.
  - destruct (update_outcome k c) as (o & c' & H & _ & Hef). now rewrite H.
  - destruct (close_outcome c) as (o & c' & H & _ & Hef). now rewrite H.
  - destruct (refresh_outcome c) as (o & c' & H & _ & Hef). now rewrite H.
  - destruct (set_description_outcome d c) as (o & c' & H & _ & Hef).
    now rewrite H.
  - apply effect_refl.
  - apply effect_refl.
Qed.

Lemma effect_guarded (c c' : config) :
  effect c c' -> guarded (self c) -> guarded (self c').
Proof.
  intros (D & S & _) G H. destruct (S H) as [Hs Hc].
  rewrite D, Hc. apply G. congruence.
Qed.

Lemma guarded_disabled (s : asmqdm) :
  guarded s -> disable s = true -> live s = false.
Proof.
  intros G D. unfold live. destruct (_state s) eqn:St; [| reflexivity].
  destruct G as [G _]; congruence.
Qed.

Lemma call_on_state_no_disable_bit (call : ffi_call) (st : option handle) :
  call_state call = Some st -> no_disable_bit call.
Proof. destruct call; cbn; intros H; try exact I; discriminate. Qed.

Lemma init_desc_bytes_run (d : option string) (w : world) :
  (exists e w', init_desc_bytes d w = (Raise e, w')) \/
  exists (b : option pybytes) (w' : world),
    init_desc_bytes d w = (Return b, w') /\ _ffi.calls w' = _ffi.calls w.
Proof.
  unfold init_desc_bytes, encode, ret, bind.
  destruct d as [str |]; [destruct (str_truthy str) |];
    [destruct (has_surrogate str) | |];
    [left; do 2 eexists; reflexivity | | |];
    right; do 2 eexists; split; reflexivity.
Qed.

(** The calls of the constructor: none, or the one that creates the
    state, and that one never carries the DISABLE bit. *)
Lemma init_calls (a : init_args) (w w0 : world) (s : asmqdm) :
  __init__ a w = (Return s, w0) ->
  exists new : list ffi_call,
    _ffi.calls w0 = _ffi.calls w ++ new /\ Forall no_disable_bit new.
Proof.
  unfold __init__.
  destruct (arg_disable a) eqn:D; cbn [negb].
  - unfold ret. intros H; inversion H; subst.
    exists []. split; [now rewrite app_nil_r | constructor].
  - unfold bind at 1.
    destruct (init_desc_bytes_run (arg_desc a) w)
      as [(e & w1 & Hd) | (db & w1 & Hd & Hc)]; rewrite Hd;
      [discriminate |].
    destruct (arg_async_render a); unfold bind.
    + unfold _ffi.create_async.
      match goal with
      | |- context [(_ffi._get_lib ;; _ffi.foreign ?f ?log) w1] =>
          destruct (ffi_cases f log w1) as [Hr | (st & w2 & Hr & Hc2)];
          rewrite Hr
      end; [discriminate |].
      unfold ret. intros H; inversion H; subst.
      eexists. split; [rewrite Hc2, Hc; reflexivity |].
      constructor; [| constructor].
      unfold no_disable_bit; cbn.
      destruct (arg_leave a), (arg_ascii a); reflexivity.
    + unfold _ffi.create.
      match goal with
      | |- context [(_ffi._get_lib ;; _ffi.foreign ?f ?log) w1] =>
          destruct (ffi_cases f log w1) as [Hr | (st & w2 & Hr & Hc2)];
          rewrite Hr
      end; [discriminate |].
      unfold ret. intros H; inversion H; subst.
      eexists. split; [rewrite Hc2, Hc; reflexivity |].
      constructor; [| constructor].
      unfold no_disable_bit; cbn.
      destruct (arg_leave a), (arg_ascii a); reflexivity.
Qed.

Lemma init_guarded (a : init_args) (w w0 : world) (s : asmqdm) :
  __init__ a w = (Return s, w0) -> guarded s.
Proof.
  intros H. destruct (init_returns a w w0 s H) as (_ & _ & Hc & Hd & _ & _ & Hs).
  intros St. split; [| exact Hc].
  rewrite Hd. destruct (arg_disable a); [| reflexivity].
  destruct (Hs eq_refl) as [Hn _]. congruence.
Qed.

Lemma reached_step (a : init_args) (w : world) (c : config) (o : op) :
  reached a w c -> reached a w (after_op c o).
Proof.
  intros (G & D & W & new & C & F).
  pose proof (op_effect c o) as Hef.
  pose proof Hef as (D' & _ & L' & new' & C' & F').
  split; [exact (effect_guarded _ _ Hef G) |].
  split; [congruence |]. split.
  - intros Ha. rewrite <- D in Ha.
    destruct (L' (guarded_disabled _ G Ha)) as [Hw _].
    rewrite Hw. apply W. congruence.
  - exists (new ++ new'). split; [rewrite C', C; now rewrite app_assoc |].
    apply Forall_app. split; [exact F |].
    eapply Forall_impl; [| exact F'].
    intros call [_ Hc]. exact (call_on_state_no_disable_bit _ _ Hc).
Qed.

Lemma reached_steps (a : init_args) (w : world) (os : list op) (c : config) :
  reached a w c -> reached a w (after_ops c os).
Proof.
  revert c. induction os as [| o os IH]; intros c R; [exact R |].
  cbn. apply IH. now apply reached_step.
Qed.

(** C10. From a new instance and through any sequence of operations:
    [_state] is not [None] only if the instance is neither disabled nor
    closed, and the next operation keeps it so; every boundary call that
    an operation makes is made by an instance that holds a state, is not
    disabled and is not closed, on the state it holds; an instance
    created with [disable=True] leaves the process-wide state as it was
    (no engine function runs); and no call that the wrapper has made
    carries the DISABLE bit 0x02. *)
Theorem guard_invariant (a : init_args) (w w0 : world) (s0 : asmqdm)
  (os : list op) :
  __init__ a w = (Return s0, w0) ->
  let c := after_ops (mk_config s0 w0) os in
  guarded (self c) /\
  (forall o : op,
      guarded (self (after_op c o)) /\
      exists new : list ffi_call,
        _ffi.calls (wld (after_op c o)) = _ffi.calls (wld c) ++ new /\
        Forall (fun call =>
                  (_state (self c) <> None /\ disable (self c) = false /\
                   _closed (self c) = false) /\
                  call_state call = Some (_state (self c))) new) /\
  (arg_disable a = true -> wld c = w) /\
  (exists new : list ffi_call,
      _ffi.calls (wld c) = _ffi.calls w ++ new /\
      Forall (fun call => forall flags, sent_flags call = Some flags ->
                                        Z.land flags 0x02 = 0) new).
Proof.
  intros H c.
  assert (R0 : reached a w (mk_config s0 w0)).
  { destruct (init_returns a w w0 s0 H) as (_ & _ & _ & Hd & _ & _ & Hs).
    split; [exact (init_guarded a w w0 s0 H) |].
    split; [exact Hd |].
    split; [intros Ha; now destruct (Hs Ha) |].
    exact (init_calls a w w0 s0 H). }
  pose proof (reached_steps a w os _ R0) as R. fold c in R.
  destruct R as (G & D & W & new & C & F).
  split; [exact G |]. split; [| split; [exact W |]].
  - intros o. pose proof (op_effect c o) as Hef.
    split; [exact (effect_guarded _ _ Hef G) |].
    destruct Hef as (_ & _ & _ & new' & C' & F').
    exists new'. split; [exact C' |].
    eapply Forall_impl; [| exact F'].
    intros call [Hl Hc]. split; [| exact Hc].
    pose proof (live_holds_state _ Hl) as Hs.
    destruct (G Hs) as [Hd Hcl]. now repeat split.
  - exists new. split; [exact C |].
    eapply Forall_impl; [| exact F].
    intros call Hn flags Hf. unfold no_disable_bit in Hn.
    now rewrite Hf in Hn.
Qed.

(** *** Iteration *)

Lemma loadable_loaded (w : world) : loadable w -> loadable (loaded w).
Proof.
  unfold loadable, loaded. intros [H | H].
  - rewrite H. now left.
  - destruct (_ffi._lib w) eqn:Hl; [now left | now left].
Qed.

(** With the library at hand a function of [_ffi] returns. *)
Lemma ffi_returns {A} (f : eng -> A * eng) (log : A -> ffi_call) (w : world) :
  loadable w ->
  exists (r : A) (w' : world),
    (_ffi._get_lib ;; _ffi.foreign f log) w = (Return r, w') /\ loadable w'.
Proof.
  intros L. unfold bind. rewrite (get_lib_loadable w L), foreign_run.
  do 2 eexists. split; [reflexivity |].
  destruct (loadable_loaded w L) as [H | H]; [left | right]; exact H.
Qed.

Lemma lift_ffi_returns {A} (f : eng -> A * eng) (log : A -> ffi_call)
  (c : config) :
  loadable (wld c) ->
  exists (r : A) (w' : world),
    lift (_ffi._get_lib ;; _ffi.foreign f log) c
    = (Return r, mk_config (self c) w') /\ loadable w'.
Proof.
  intros L. unfold lift.
  destruct (ffi_returns f log (wld c) L) as (r & w' & H & L').
  rewrite H. now exists r, w'.
Qed.

(** [update] returns when the library is at hand; it never touches
    [_state], [_closed] or the wrapped iterator. *)
Lemma update_returns (k : Z) (c : config) :
  loadable (wld c) ->
  exists c', update k c = (Return tt, c') /\ loadable (wld c') /\
             _state (self c') = _state (self c) /\
             _closed (self c') = _closed (self c) /\
             _iterator (self c') = _iterator (self c).
Proof.
  intros L. unfold update, bind, attr, id.
  destruct (live (self c)).
  - destruct (_is_async (self c)).
    + unfold _ffi.update_async.
      match goal with
      | |- context [lift (_ffi._get_lib ;; _ffi.foreign ?f ?log) c] =>
          destruct (lift_ffi_returns f log c L) as (r & w' & H & L')
      end.
      rewrite H. eexists. split; [reflexivity |]. now repeat split.
    + unfold _ffi.update.
      match goal with
      | |- context [lift (_ffi._get_lib ;; _ffi.foreign ?f ?log) c] =>
          destruct (lift_ffi_returns f log c L) as (r & w' & H & L')
      end.
      rewrite H. eexists. split; [reflexivity |]. now repeat split.
  - eexists. split; [reflexivity |]. now repeat split.
Qed.

Lemma close_returns (c : config) :
  loadable (wld c) ->
  exists c', close c = (Return tt, c') /\ loadable (wld c') /\
             _iterator (self c') = _iterator (self c).
Proof.
  intros L. unfold close, bind, attr, id.
  destruct (live (self c)).
  - destruct (_is_async (self c)).
    + unfold _ffi.close_async.
      match goal with
      | |- context [lift (_ffi._get_lib ;; _ffi.foreign ?f ?log) c] =>
          destruct (lift_ffi_returns f log c L) as (r & w' & H & L')
      end.
      rewrite H. eexists. split; [reflexivity |]. now repeat split.
    + unfold _ffi.close.
      match goal with
      | |- context [lift (_ffi._get_lib ;; _ffi.foreign ?f ?log) c] =>
          destruct (lift_ffi_returns f log c L) as (r & w' & H & L')
      end.
      rewrite H. eexists. split; [reflexivity |]. now repeat split.
  - eexists. split; [reflexivity |]. now repeat split.
Qed.

(** [update] and [close] do not look at the wrapped iterator: they
    commute with moving it. *)
Lemma update_with_iterator (rest : option (list T)) (k : Z) (c : config) :
  update k (with_iterator rest c)
  = (fst (update k c), with_iterator rest (snd (update k c))).
Proof.
  destruct c as [s w]. unfold update, bind, attr, id, with_iterator.
  cbn [self wld]. change (live (set__iterator rest s)) with (live s).
  destruct (live s); [| reflexivity].
  change (_is_async (set__iterator rest s)) with (_is_async s).
  change (_state (set__iterator rest s)) with (_state s).
  destruct (_is_async s); unfold lift; cbn [self wld].
  - destruct (_ffi.update_async (_state s) k w) as [[r | e] w']; reflexivity.
  - destruct (_ffi.update (_state s) k w) as [[r | e] w']; reflexivity.
Qed.

Lemma close_with_iterator (rest : option (list T)) (c : config) :
  close (with_iterator rest c)
  = (fst (close c), with_iterator rest (snd (close c))).
Proof.
  destruct c as [s w]. unfold close, bind, attr, id, with_iterator.
  cbn [self wld]. change (live (set__iterator rest s)) with (live s).
  destruct (live s); [| reflexivity].
  change (_is_async (set__iterator rest s)) with (_is_async s).
  change (_state (set__iterator rest s)) with (_state s).
  destruct (_is_async s); unfold lift; cbn [self wld].
  - destruct (_ffi.close_async (_state s) w) as [[r | e] w']; reflexivity.
  - destruct (_ffi.close (_state s) w) as [[r | e] w']; reflexivity.
Qed.

Lemma with_iterator_same (rest : option (list T)) (c : config) :
  _iterator (self c) = rest -> with_iterator rest c = c.
Proof. destruct c as [[] w]. cbn. intros ->. reflexivity. Qed.

(** With the library at hand where it is needed, [update] and [close]
    return. *)
Lemma update_goes (k : Z) (c : config) :
  usable c ->
  exists c', update k c = (Return tt, c') /\ usable c' /\
             _state (self c') = _state (self c) /\
             _closed (self c') = _closed (self c) /\
             _iterator (self c') = _iterator (self c).
Proof.
  intros U. destruct (live (self c)) eqn:L.
  - destruct (update_returns k c (U L)) as (c' & H & L' & Hs).
    exists c'. split; [exact H |]. split; [intros _; exact L' | exact Hs].
  - rewrite (update_not_live c k L). eexists. split; [reflexivity |].
    split; [| now repeat split].
    intros L'. cbn in L'. rewrite live_set_n in L'. congruence.
Qed.

Lemma close_goes (c : config) :
  usable c ->
  exists c', close c = (Return tt, c') /\ live (self c') = false /\
             _iterator (self c') = _iterator (self c).
Proof.
  intros U. destruct (live (self c)) eqn:L.
  - destruct (close_returns c (U L)) as (c' & H & _ & Hi).
    exists c'. split; [exact H |].
    split; [exact (close_returns_not_live c c' H) | exact Hi].
  - rewrite (close_not_live c L). exists c. now repeat split.
Qed.

Lemma usable_idle (c : config) : live (self c) = false -> usable c.
Proof. intros L L'. congruence. Qed.

(** [update] and [close] do not look at the wrapped iterator or at the
    iterable: they commute with the iterator moving on. *)
Lemma advance_looks (rest : list T) (s : asmqdm) :
  live (advance rest s) = live s /\
  _is_async (advance rest s) = _is_async s /\
  _state (advance rest s) = _state s /\
  n (advance rest s) = n s.
Proof.
  unfold advance. destruct (iterable s) as [it |]; [destruct (one_shot it) |];
    repeat split.
Qed.

Lemma advance_set_n (rest : list T) (r : Z) (s : asmqdm) :
  advance rest (set_n r s) = set_n r (advance rest s).
Proof.
  unfold advance. cbn [iterable set_n].
  destruct (iterable s) as [it |]; [destruct (one_shot it) |]; reflexivity.
Qed.

Lemma advance_released (rest : list T) (s : asmqdm) :
  advance rest (set__closed true (set__state None s))
  = set__closed true (set__state None (advance rest s)).
Proof.
  unfold advance. cbn [iterable set__closed set__state].
  destruct (iterable s) as [it |]; [destruct (one_shot it) |]; reflexivity.
Qed.

Lemma update_moved (rest : list T) (k : Z) (c : config) :
  update k (moved rest c) = (fst (update k c), moved rest (snd (update k c))).
Proof.
  destruct c as [s w]. unfold update, bind, attr, id, moved.
  cbn [self wld].
  destruct (advance_looks rest s) as (Hl & Hm & Hs & Hn).
  rewrite Hl, Hm, Hs, Hn.
  destruct (live s).
  - destruct (_is_async s); unfold lift; cbn [self wld].
    + destruct (_ffi.update_async (_state s) k w) as [[r | e] w'];
        cbn; [now rewrite advance_set_n | reflexivity].
    + destruct (_ffi.update (_state s) k w) as [[r | e] w'];
        cbn; [now rewrite advance_set_n | reflexivity].
  - cbn. now rewrite advance_set_n.
Qed.

Lemma close_moved (rest : list T) (c : config) :
  close (moved rest c) = (fst (close c), moved rest (snd (close c))).
Proof.
  destruct c as [s w]. unfold close, bind, attr, id, moved.
  cbn [self wld].
  destruct (advance_looks rest s) as (Hl & Hm & Hs & _).
  rewrite Hl, Hm, Hs.
  destruct (live s); [| reflexivity].
  destruct (_is_async s); unfold lift; cbn [self wld].
  - destruct (_ffi.close_async (_state s) w) as [[r | e] w'];
      cbn; [now rewrite advance_released | reflexivity].
  - destruct (_ffi.close (_state s) w) as [[r | e] w'];
      cbn; [now rewrite advance_released | reflexivity].
Qed.

Lemma moved_same (rest : list T) (c : config) :
  in_step rest c -> moved rest c = c.
Proof.
  destruct c as [s w]. intros [Hi Hs]. unfold moved. cbn [self wld] in *.
  f_equal. unfold advance.
  destruct (iterable s) as [it |] eqn:Hit.
  - destruct (one_shot it) eqn:Ho.
    + pose proof (Hs it eq_refl Ho) as Hr.
      destruct it as [its hl os]. cbn in *. subst.
      destruct s; cbn in *. subst. reflexivity.
    + destruct s; cbn in *. subst. reflexivity.
  - destruct s; cbn in *. subst. reflexivity.
Qed.

Lemma moved_twice (r1 r2 : list T) (c : config) :
  moved r1 (moved r2 c) = moved r1 c.
Proof.
  destruct c as [s w]. unfold moved. cbn [self wld]. f_equal.
  unfold advance at 1 3.
  destruct (iterable s) as [it |] eqn:Hit.
  - destruct (one_shot it) eqn:Ho.
    + unfold advance. rewrite Hit, Ho. reflexivity.
    + unfold advance. rewrite Hit, Ho. cbn [iterable set__iterator].
      rewrite Hit, Ho. reflexivity.
  - unfold advance. rewrite Hit. cbn [iterable set__iterator].
    rewrite Hit. reflexivity.
Qed.

Lemma moved_in_step (rest : list T) (c : config) : in_step rest (moved rest c).
Proof.
  destruct c as [s w]. unfold in_step, moved, advance. cbn [self wld].
  destruct (iterable s) as [it |] eqn:Hit.
  - destruct (one_shot it) eqn:Ho; cbn.
    + split; [reflexivity |]. intros it' H _. now inversion H.
    + split; [reflexivity |]. intros it' H Ho'. congruence.
  - cbn. split; [reflexivity |]. intros it' H. congruence.
Qed.

Lemma usable_moved (rest : list T) (c : config) :
  usable c -> usable (moved rest c).
Proof.
  unfold usable, moved. cbn [self wld].
  destruct (advance_looks rest (self c)) as (Hl & _). now rewrite Hl.
Qed.

Lemma updates_then_close_moved (rest : list T) (k : nat) (c : config) :
  updates_then_close k (moved rest c)
  = (fst (updates_then_close k c), moved rest (snd (updates_then_close k c))).
Proof.
  revert c. induction k as [| k IH]; intros c; cbn [updates_then_close].
  - apply close_moved.
  - unfold bind. rewrite update_moved.
    destruct (update 1 c) as [[[] | e] c']; cbn [fst snd]; [apply IH |].
    reflexivity.
Qed.

Lemma updates_by_one_moved (rest : list T) (k : nat) (c : config) :
  updates_by_one k (moved rest c)
  = (fst (updates_by_one k c), moved rest (snd (updates_by_one k c))).
Proof.
  revert c. induction k as [| k IH]; intros c; cbn [updates_by_one].
  - reflexivity.
  - unfold bind. rewrite update_moved.
    destruct (update 1 c) as [[[] | e] c']; cbn [fst snd]; [apply IH |].
    reflexivity.
Qed.

Lemma updates_then_close_goes (k : nat) (c : config) :
  usable c ->
  fst (updates_then_close k c) = Return tt /\
  live (self (snd (updates_then_close k c))) = false.
Proof.
  revert c. induction k as [| k IH]; intros c U; cbn [updates_then_close].
  - destruct (close_goes c U) as (c' & H & L & _). rewrite H. now split.
  - unfold bind. destruct (update_goes 1 c U) as (c' & H & U' & _).
    rewrite H. now apply IH.
Qed.

Lemma updates_by_one_goes (k : nat) (c : config) :
  usable c ->
  fst (updates_by_one k c) = Return tt /\
  usable (snd (updates_by_one k c)) /\
  _state (self (snd (updates_by_one k c))) = _state (self c) /\
  _closed (self (snd (updates_by_one k c))) = _closed (self c).
Proof.
  revert c. induction k as [| k IH]; intros c U; cbn [updates_by_one].
  - now repeat split.
  - unfold bind.
    destruct (update_goes 1 c U) as (c' & H & U' & Hs & Hc & _).
    rewrite H. destruct (IH c' U') as (H1 & H2 & H3 & H4).
    repeat split; try assumption; congruence.
Qed.

(** One step of the loop on an iterator that has an element left. *)
Lemma next_gives (item : T) (rest : list T) (c : config) :
  usable c ->
  _iterator (self c) = Some (item :: rest) ->
  __next__ c = (Return item, moved rest (snd (update 1 c))).
Proof.
  intros U Hi. unfold __next__, bind at 1, attr, id. rewrite Hi.
  unfold try_except_StopIteration. cbn [next_item].
  unfold bind, assign, modify, ret.
  change (mk_config (advance rest (self c)) (wld c)) with (moved rest c).
  rewrite update_moved.
  destruct (update_goes 1 c U) as (c' & H & _). now rewrite H.
Qed.

(** One step of the loop on an exhausted iterator. *)
Lemma next_ends (c : config) :
  usable c ->
  _iterator (self c) = Some [] ->
  __next__ c = (Raise StopIteration, snd (close c)).
Proof.
  intros U Hi. unfold __next__, bind at 1, attr, id. rewrite Hi.
  unfold try_except_StopIteration. cbn [next_item].
  unfold raise at 1. unfold bind, raise.
  destruct (close_goes c U) as (c' & H & _). now rewrite H.
Qed.

Lemma for_body_step (brk : nat) (c : config) :
  for_body (S brk) c
  = match __next__ c with
    | (Return item, c') => (more <- for_body brk ;; ret (item :: more)) c'
    | (Raise StopIteration, c') => (Return [], c')
    | (Raise e, c') => (Raise e, c')
    end.
Proof. reflexivity. Qed.

Lemma close_keeps_step (rest : list T) (c : config) :
  in_step rest c -> in_step rest (snd (close c)).
Proof.
  destruct c as [s w]. intros [Hi Hs]. unfold close, bind, attr, id.
  cbn [self wld] in *.
  destruct (live s); [| now split].
  destruct (_is_async s); unfold lift; cbn [self wld].
  - destruct (_ffi.close_async (_state s) w) as [[r | e] w']; now split.
  - destruct (_ffi.close (_state s) w) as [[r | e] w']; now split.
Qed.

Lemma for_body_exhausts (rest : list T) (extra : nat) (c : config) :
  usable c ->
  in_step rest c ->
  for_body (S (List.length rest + extra)) c
  = (Return rest,
     moved [] (snd (updates_then_close (List.length rest) c))).
Proof.
  revert c. induction rest as [| item rest IH]; intros c U Hin.
  - cbn [List.length Nat.add updates_then_close]. rewrite for_body_step.
    rewrite (next_ends c U (proj1 Hin)).
    now rewrite (moved_same [] _ (close_keeps_step [] c Hin)).
  - cbn [List.length Nat.add]. rewrite for_body_step.
    rewrite (next_gives item rest c U (proj1 Hin)).
    destruct (update_goes 1 c U) as (c' & H & U' & _).
    unfold bind. rewrite H. cbn [snd].
    rewrite (IH (moved rest c') (usable_moved rest c' U')
                (moved_in_step rest c')).
    unfold ret. cbn [updates_then_close]. unfold bind. rewrite H.
    rewrite updates_then_close_moved. cbn [snd].
    now rewrite moved_twice.
Qed.

Lemma for_body_breaks (rest : list T) (brk : nat) (c : config) :
  usable c ->
  in_step rest c ->
  (brk <= List.length rest)%nat ->
  for_body brk c
  = (Return (firstn brk rest),
     moved (skipn brk rest) (snd (updates_by_one brk c))).
Proof.
  revert rest c. induction brk as [| brk IH]; intros rest c U Hin Hle.
  - cbn. unfold ret. now rewrite (moved_same rest c Hin).
  - destruct rest as [| item rest]; [cbn in Hle; lia |].
    rewrite for_body_step. rewrite (next_gives item rest c U (proj1 Hin)).
    destruct (update_goes 1 c U) as (c' & H & U' & _).
    unfold bind. rewrite H. cbn [snd].
    rewrite (IH rest (moved rest c') (usable_moved rest c' U')
                (moved_in_step rest c'))
      by (cbn in Hle; lia).
    unfold ret. cbn [updates_by_one firstn skipn]. unfold bind. rewrite H.
    rewrite updates_by_one_moved. cbn [snd].
    now rewrite moved_twice.
Qed.

Lemma iter_positions (c : config) (it : pyiterable) :
  iterable (self c) = Some it ->
  __iter__ c = (Return tt, with_iterator (Some (items it)) c).
Proof.
  intros H. unfold __iter__, bind, attr, id. now rewrite H.
Qed.

(** What [__iter__] leaves is in step, and is the configuration moved
    to the start of what the iterable has left. *)
Lemma iter_in_step (c : config) (it : pyiterable) :
  iterable (self c) = Some it ->
  in_step (items it) (with_iterator (Some (items it)) c) /\
  (forall rest c', moved rest (with_iterator (Some (items it)) c') =
                   moved rest c') /\
  (usable c -> usable (with_iterator (Some (items it)) c)).
Proof.
  intros H. split; [| split].
  - split; [reflexivity |]. cbn. intros it' H' _. congruence.
  - intros rest [s w]. unfold moved, with_iterator, advance. cbn [self wld].
    cbn [iterable set__iterator].
    destruct (iterable s) as [it' |]; [destruct (one_shot it') |];
      reflexivity.
  - intros U. exact U.
Qed.

(** The whole loop, started by [__iter__]. *)
Lemma for_loop_exhausts (c : config) (it : pyiterable) (extra : nat) :
  usable c ->
  iterable (self c) = Some it ->
  for_loop (S (List.length (items it) + extra)) c
  = (Return (items it),
     moved [] (snd (updates_then_close (List.length (items it)) c))).
Proof.
  intros U Hit. destruct (iter_in_step c it Hit) as (Hin & Hm & Hu).
  unfold for_loop, bind. rewrite (iter_positions c it Hit).
  rewrite (for_body_exhausts (items it) extra _ (Hu U) Hin).
  assert (Hw : with_iterator (Some (items it)) c
               = moved (items it) (with_iterator (Some (items it)) c))
    by (symmetry; apply moved_same; exact Hin).
  rewrite Hw at 1. rewrite Hm, updates_then_close_moved. cbn [snd].
  now rewrite moved_twice.
Qed.

Lemma for_loop_breaks (c : config) (it : pyiterable) (brk : nat) :
  usable c ->
  iterable (self c) = Some it ->
  (brk <= List.length (items it))%nat ->
  for_loop brk c
  = (Return (firstn brk (items it)),
     moved (skipn brk (items it)) (snd (updates_by_one brk c))).
Proof.
  intros U Hit Hle. destruct (iter_in_step c it Hit) as (Hin & Hm & Hu).
  unfold for_loop, bind. rewrite (iter_positions c it Hit).
  rewrite (for_body_breaks (items it) brk _ (Hu U) Hin Hle).
  assert (Hw : with_iterator (Some (items it)) c
               = moved (items it) (with_iterator (Some (items it)) c))
    by (symmetry; apply moved_same; exact Hin).
  rewrite Hw at 1. rewrite Hm, updates_by_one_moved. cbn [snd].
  now rewrite moved_twice.
Qed.

(** A [close] that found the instance live has released it. *)
Lemma close_live_released (c c1 : config) :
  live (self c) = true ->
  close c = (Return tt, c1) ->
  _state (self c1) = None /\ _closed (self c1) = true.
Proof.
  intros L. unfold close, bind, attr, id. cbn. rewrite L.
  destruct (_is_async (self c)); unfold lift;
    match goal with
    | |- context [?f (_state (self c)) (wld c)] =>
        destruct (f (_state (self c)) (wld c)) as [[[] | e] w']
    end; cbn; intros H; inversion H; now split.
Qed.

Lemma live_by_fields (s s' : asmqdm) :
  _state s' = _state s -> _closed s' = _closed s -> live s' = live s.
Proof. unfold live. now intros -> ->. Qed.

Lemma updates_then_close_releases (k : nat) (c : config) :
  usable c ->
  live (self c) = true ->
  _state (self (snd (updates_then_close k c))) = None /\
  _closed (self (snd (updates_then_close k c))) = true.
Proof.
  revert c. induction k as [| k IH]; intros c U L; cbn [updates_then_close].
  - destruct (close_goes c U) as (c' & H & _). rewrite H.
    exact (close_live_released c c' L H).
  - unfold bind. destruct (update_goes 1 c U) as (c' & H & U' & Hs & Hc & _).
    rewrite H. apply IH; [exact U' |].
    now rewrite (live_by_fields _ _ Hs Hc).
Qed.

Lemma moved_fields (rest : list T) (c : config) :
  live (self (moved rest c)) = live (self c) /\
  _state (self (moved rest c)) = _state (self c) /\
  _closed (self (moved rest c)) = _closed (self c).
Proof.
  unfold moved. cbn [self]. destruct (advance_keeps rest (self c)) as (_ & Hs & Hc).
  repeat split; [now apply live_by_fields | exact Hs | exact Hc].
Qed.

(** [__exit__] releases whatever it finds. *)
Lemma exit_goes (c : config) :
  usable c ->
  exists c2, __exit__ c = (Return false, c2) /\ live (self c2) = false /\
             (live (self c) = true ->
              _state (self c2) = None /\ _closed (self c2) = true) /\
             (live (self c) = false -> c2 = c).
Proof.
  intros U. unfold __exit__, bind, ret.
  destruct (close_goes c U) as (c' & H & L' & _). rewrite H.
  exists c'. split; [reflexivity |]. split; [exact L' |]. split.
  - intros L. exact (close_live_released c c' L H).
  - intros L. rewrite (close_not_live c L) in H. now inversion H.
Qed.

(** C3, as the code has it.  Over an instance that wraps a finite
    iterable (for a generator or another iterator, [items] are the
    elements it has left), with the library at hand if the instance is
    live:
    - a loop that runs until the iterable is exhausted receives exactly
      its elements, in order, and leaves the instance as [update(1)]
      called once per element followed by one [close()] leaves it, the
      wrapped iterator being at its end;
    - a loop that is left after [brk] elements has received the first
      [brk] elements and leaves the instance as [brk] calls [update(1)]
      leave it: [close] has not run, [_state] and [_closed] are as they
      were before the loop;
    - however the loop was left, the [__exit__] that a [with] block runs
      afterwards returns [False] and leaves the instance not live; if the
      instance was live before the loop, [_state] is [None] and
      [_closed] is [True] after it. *)
Theorem iteration_protocol (c : config) (it : pyiterable) :
  usable c ->
  iterable (self c) = Some it ->
  (forall extra : nat,
      fst (updates_then_close (List.length (items it)) c) = Return tt /\
      for_loop (S (List.length (items it) + extra)) c
      = (Return (items it),
         moved []
           (snd (updates_then_close (List.length (items it)) c)))) /\
  (forall brk : nat,
      (brk <= List.length (items it))%nat ->
      fst (updates_by_one brk c) = Return tt /\
      for_loop brk c
      = (Return (firstn brk (items it)),
         moved (skipn brk (items it)) (snd (updates_by_one brk c))) /\
      _state (self (snd (for_loop brk c))) = _state (self c) /\
      _closed (self (snd (for_loop brk c))) = _closed (self c)) /\
  (forall brk : nat,
      exists c2,
        __exit__ (snd (for_loop brk c)) = (Return false, c2) /\
        live (self c2) = false /\
        (live (self c) = true ->
         _state (self c2) = None /\ _closed (self c2) = true)).
Proof.
  intros U Hit.
  assert (Hfull : forall extra : nat,
             for_loop (S (List.length (items it) + extra)) c
             = (Return (items it),
                moved []
                  (snd (updates_then_close (List.length (items it)) c))))
    by (intros extra; now apply for_loop_exhausts).
  assert (Hbrk : forall brk : nat,
             (brk <= List.length (items it))%nat ->
             for_loop brk c
             = (Return (firstn brk (items it)),
                moved (skipn brk (items it)) (snd (updates_by_one brk c))))
    by (intros brk Hle; now apply for_loop_breaks).
  split; [| split].
  - intros extra. split; [| apply Hfull].
    now apply updates_then_close_goes.
  - intros brk Hle.
    destruct (updates_by_one_goes brk c U) as (Hr & _ & Hs & Hc).
    split; [exact Hr |]. split; [now apply Hbrk |].
    rewrite (Hbrk brk Hle). cbn [snd].
    destruct (moved_fields (skipn brk (items it))
                (snd (updates_by_one brk c))) as (_ & Hs' & Hc').
    split; congruence.
  - intros brk.
    destruct (Nat.le_gt_cases brk (List.length (items it))) as [Hle | Hgt].
    + rewrite (Hbrk brk Hle). cbn [snd].
      destruct (updates_by_one_goes brk c U) as (_ & U' & Hs & Hc).
      set (c1 := moved (skipn brk (items it)) (snd (updates_by_one brk c))).
      destruct (moved_fields (skipn brk (items it))
                  (snd (updates_by_one brk c))) as (Hl1 & Hs1 & Hc1).
      fold c1 in Hl1, Hs1, Hc1.
      destruct (exit_goes c1) as (c2 & He & L2 & Hrel & _);
        [now apply usable_moved |].
      exists c2. split; [exact He |]. split; [exact L2 |].
      intros L. apply Hrel. rewrite Hl1.
      now rewrite (live_by_fields _ _ Hs Hc).
    + replace brk
        with (S (List.length (items it)
                 + (brk - S (List.length (items it)))))%nat by lia.
      rewrite Hfull. cbn [snd].
      set (c0 := snd (updates_then_close (List.length (items it)) c)).
      destruct (updates_then_close_goes (List.length (items it)) c U)
        as (_ & L0).
      fold c0 in L0.
      destruct (moved_fields [] c0) as (Hl1 & Hs1 & Hc1).
      assert (L1 : live (self (moved [] c0)) = false) by congruence.
      destruct (exit_goes (moved [] c0) (usable_idle _ L1))
        as (c2 & He & L2 & _ & Hsame).
      exists c2. split; [exact He |]. split; [exact L2 |].
      intros L. rewrite (Hsame L1), Hs1, Hc1.
      now apply updates_then_close_releases.
Qed.

(** [set_description] is its lines 225-228 followed by the call of line
    229. *)
Lemma set_description_split (d : option string) (c : config) :
  set_description d c
  = (r <- set_description_before_call d ;;
     match r with
     | Some (st, b) => lift (_ffi.set_description st b)
     | None => ret tt
     end) c.
Proof.
  destruct c as [s w].
  unfold set_description, set_description_before_call, bind, assign, modify,
    attr, id, ret.
  cbn [self wld]. destruct (live (set_desc d s)); [| reflexivity].
  destruct (rebind_desc_bytes d (mk_config (set_desc d s) w)) as [[b | e] c'];
    reflexivity.
Qed.

End Properties.

(** ** The properties on concrete instances *)

Import Scenario.

Example list_bar_created :
  __init__ list_args RefEngine.fresh_world = (Return (self list_bar), wld list_bar).
Proof. reflexivity. Qed.

Example loading_bar_created :
  __init__ loading_args RefEngine.fresh_world
  = (Return (self loading_bar), wld loading_bar).
Proof. reflexivity. Qed.

(** Without the library an instance that is not disabled cannot be
    created. *)
Example no_library_no_instance :
  fst (__init__ list_args RefEngine.no_lib_world) = Raise OSError /\
  _ffi.calls (snd (__init__ list_args RefEngine.no_lib_world)) = [].
Proof. split; reflexivity. Qed.

(** C3 as stated does not hold: release is not guaranteed when the
    iteration ends early.  Over [asmqdm([10, 20, 30], desc="Load")], a
    loop left after the first element, and even a loop left in the body
    of the last element (all three elements produced), leaves the
    instance open: [_state] is still held, [_closed] is false, the
    engine was never asked to close the state and has not finalized
    it. *)
Lemma break_leaves_instance_open :
  (fst (for_loop 1 list_bar) = Return [10%nat] /\
   _state (self (snd (for_loop 1 list_bar))) = Some 1 /\
   _closed (self (snd (for_loop 1 list_bar))) = false /\
   ~ In (Call_close (Some 1)) (_ffi.calls (wld (snd (for_loop 1 list_bar)))) /\
   option_map RefEngine.bar_closed
     (nth_error (_ffi.engine (wld (snd (for_loop 1 list_bar)))) 0)
   = Some false) /\
  (fst (for_loop 3 list_bar) = Return [10; 20; 30]%nat /\
   _state (self (snd (for_loop 3 list_bar))) = Some 1 /\
   _closed (self (snd (for_loop 3 list_bar))) = false /\
   ~ In (Call_close (Some 1)) (_ffi.calls (wld (snd (for_loop 3 list_bar)))) /\
   option_map RefEngine.bar_closed
     (nth_error (_ffi.engine (wld (snd (for_loop 3 list_bar)))) 0)
   = Some false).
Proof.
  split; (repeat split; try reflexivity);
    vm_compute; intros H;
    repeat (destruct H as [H | H]; [discriminate H |]); exact H.
Qed.

(** C6 as stated does not hold: the total is not always a non-negative
    integer, and the value for an unknown length is not reserved for it.
    [asmqdm(total=-1)] returns an instance whose total is -1, and has
    handed -1 to the engine; [asmqdm([])], over a list, whose length is
    known, returns an instance whose total is the value for an unknown
    length. *)
Lemma total_is_not_validated :
  (exists s w',
      __init__ negative_total_args RefEngine.fresh_world = (Return s, w') /\
      total s = -1 /\
      _ffi.calls w' = [Call_create (-1) None 0 1 (Some 1)]) /\
  (exists it s w',
      arg_total empty_list_args = None /\
      arg_iterable empty_list_args = Some it /\ has_len it = true /\
      __init__ empty_list_args RefEngine.fresh_world = (Return s, w') /\
      total s = UNKNOWN_LENGTH).
Proof.
  split.
  - do 2 eexists. split; [reflexivity |]. split; reflexivity.
  - do 3 eexists. repeat split.
Qed.

(** C4.  The code releases the old buffer before the new one is
    installed.  On [asmqdm(total=10, desc="Loading", async_render=True)]
    the engine holds the address of the bytes object made from
    "Loading", and the wrapper keeps that object alive.  In
    [set_description("Done")], once line 228 has run and before the call
    of line 229, the engine still holds the old object while
    [self._desc_bytes] already refers to the new one: nothing keeps the
    old object alive.  Only the call of line 229 makes the engine hold
    the new object. *)
Theorem set_description_releases_before_install :
  (kept_alive (self loading_bar) loading_bytes /\
   installed_desc (Some 1) (_ffi.calls (wld loading_bar)) None
   = Some loading_bytes) /\
  (exists c1 : Scenario.config,
      set_description_before_call (Some "Done"%string) loading_bar
      = (Return (Some (Some 1, done_bytes)), c1) /\
      installed_desc (Some 1) (_ffi.calls (wld c1)) None
      = Some loading_bytes /\
      option_map RefEngine.bar_desc (nth_error (_ffi.engine (wld c1)) 0)
      = Some (Some loading_bytes) /\
      kept_alive (self c1) done_bytes /\
      ~ kept_alive (self c1) loading_bytes /\
      exists c2 : Scenario.config,
        core.set_description (Some "Done"%string) loading_bar
        = (Return tt, c2) /\
        lift (_ffi.set_description (Some 1) done_bytes) c1
        = (Return tt, c2) /\
        installed_desc (Some 1) (_ffi.calls (wld c2)) None
        = Some done_bytes) .
Proof.
  split; [split; reflexivity |].
  eexists. split; [vm_compute; reflexivity |].
  split; [reflexivity |]. split; [reflexivity |]. split; [reflexivity |].
  split; [vm_compute; intros H; discriminate H |].
  eexists. split; [vm_compute; reflexivity |].
  split; [vm_compute; reflexivity | reflexivity].
Qed.

(** *** The theorems applied *)

Lemma disabled_counts_witness :
  arg_disable disabled_args = true /\
  exists s0 s1 : @asmqdm nat,
    __init__ disabled_args RefEngine.no_lib_world
    = (Return s0, RefEngine.no_lib_world) /\
    updates [10; 10; 10] (mk_config s0 RefEngine.no_lib_world)
    = (Return tt, mk_config s1 RefEngine.no_lib_world) /\
    n s1 = sum_of [10; 10; 10] /\
    close (mk_config s1 RefEngine.no_lib_world)
    = (Return tt, mk_config s1 RefEngine.no_lib_world).
Proof.
  split; [reflexivity |].
  apply (disabled_counts disabled_args RefEngine.no_lib_world [10; 10; 10]).
  reflexivity.
Defined.

Lemma close_idempotent_witness :
  close list_bar = (Return tt, snd (close list_bar)) /\
  close (snd (close list_bar)) = (Return tt, snd (close list_bar)).
Proof.
  split; [reflexivity |].
  apply (close_idempotent list_bar (snd (close list_bar))). reflexivity.
Defined.

Lemma update_after_close_witness :
  close list_bar = (Return tt, snd (close list_bar)) /\
  update 5 (snd (close list_bar))
  = (Return tt,
     mk_config (set_n (n (self (snd (close list_bar))) + 5)
                      (self (snd (close list_bar))))
               (wld (snd (close list_bar)))).
Proof.
  split; [reflexivity |].
  apply (update_after_close list_bar (snd (close list_bar)) 5). reflexivity.
Defined.

Lemma flags_word_witness :
  loadable RefEngine.fresh_world /\
  (exists st w',
      _ffi.create 100 None true false true RefEngine.fresh_world
      = (Return st, w') /\
      _ffi.calls w'
      = _ffi.calls RefEngine.fresh_world
          ++ [Call_create (c_int64 100) None (c_int64 (_ffi.desc_len_of None))
                          0x05 st]) /\
  (exists st w',
      _ffi.create_async 100 None true false true RefEngine.fresh_world
      = (Return st, w') /\
      _ffi.calls w'
      = _ffi.calls RefEngine.fresh_world
          ++ [Call_create_async (c_int64 100) None
                                (c_int64 (_ffi.desc_len_of None)) 0x25 st]).
Proof.
  assert (L : loadable RefEngine.fresh_world) by (right; reflexivity).
  split; [exact L |].
  pose proof (flags_word 100 None true false true RefEngine.fresh_world L)
    as (Hc & Ha & _).
  split; [exact Hc | exact Ha].
Defined.

Lemma created_count_zero_witness :
  __init__ list_args RefEngine.fresh_world
  = (Return (self list_bar), wld list_bar) /\
  n (self list_bar) = 0.
Proof.
  split; [reflexivity |].
  apply (created_count_zero list_args RefEngine.fresh_world (wld list_bar)).
  reflexivity.
Defined.

Lemma created_total_witness :
  __init__ list_args RefEngine.fresh_world
  = (Return (self list_bar), wld list_bar) /\
  (forall t, arg_total list_args = Some t -> total (self list_bar) = t) /\
  (forall it, arg_total list_args = None -> arg_iterable list_args = Some it ->
              has_len it = true -> total (self list_bar) = len it) /\
  (arg_total list_args = None ->
   (forall it, arg_iterable list_args = Some it -> has_len it = false) ->
   total (self list_bar) = UNKNOWN_LENGTH) /\
  (total (self list_bar) < 0 <->
   exists t, arg_total list_args = Some t /\ t < 0) /\
  __len__ (mk_config (self list_bar) (wld list_bar))
  = (Return (total (self list_bar)),
     mk_config (self list_bar) (wld list_bar)).
Proof.
  split; [reflexivity |].
  apply (created_total list_args RefEngine.fresh_world (wld list_bar)
                       (self list_bar)).
  reflexivity.
Defined.

Lemma guard_invariant_witness :
  __init__ list_args RefEngine.fresh_world
  = (Return (self list_bar), wld list_bar) /\
  let c := after_ops (mk_config (self list_bar) (wld list_bar))
                     [Op_iter; Op_next; Op_set_description (Some "Half"%string);
                      Op_update 5; Op_close; Op_update 2; Op_close] in
  guarded (self c) /\
  (forall o : op,
      guarded (self (after_op c o)) /\
      exists new : list ffi_call,
        _ffi.calls (wld (after_op c o)) = _ffi.calls (wld c) ++ new /\
        Forall (fun call =>
                  (_state (self c) <> None /\ disable (self c) = false /\
                   _closed (self c) = false) /\
                  call_state call = Some (_state (self c))) new) /\
  (arg_disable list_args = true -> wld c = RefEngine.fresh_world) /\
  (exists new : list ffi_call,
      _ffi.calls (wld c) = _ffi.calls RefEngine.fresh_world ++ new /\
      Forall (fun call => forall flags, sent_flags call = Some flags ->
                                        Z.land flags 0x02 = 0) new).
Proof.
  split; [reflexivity |].
  apply (guard_invariant list_args RefEngine.fresh_world (wld list_bar)
                         (self list_bar)).
  reflexivity.
Defined.

Lemma iteration_protocol_witness :
  usable list_bar /\
  iterable (self list_bar) = Some (mk_iterable [10; 20; 30]%nat true false) /\
  (forall extra : nat,
      fst (updates_then_close 3 list_bar) = Return tt /\
      for_loop (S (3 + extra)) list_bar
      = (Return [10; 20; 30]%nat,
         moved [] (snd (updates_then_close 3 list_bar)))) /\
  (forall brk : nat,
      (brk <= 3)%nat ->
      fst (updates_by_one brk list_bar) = Return tt /\
      for_loop brk list_bar
      = (Return (firstn brk [10; 20; 30]%nat),
         moved (skipn brk [10; 20; 30]%nat)
           (snd (updates_by_one brk list_bar))) /\
      _state (self (snd (for_loop brk list_bar))) = _state (self list_bar) /\
      _closed (self (snd (for_loop brk list_bar)))
      = _closed (self list_bar)) /\
  (forall brk : nat,
      exists c2,
        __exit__ (snd (for_loop brk list_bar)) = (Return false, c2) /\
        live (self c2) = false /\
        (live (self list_bar) = true ->
         _state (self c2) = None /\ _closed (self c2) = true)).
Proof.
  assert (U : usable list_bar) by (intros _; left; reflexivity).
  split; [exact U |]. split; [reflexivity |].
  exact (iteration_protocol list_bar (mk_iterable [10; 20; 30]%nat true false)
                            U eq_refl).
Defined.

(** What the loop of the witness leaves behind: three updates by one,
    then one close, in the log of boundary calls. *)
Example full_loop_calls :
  _ffi.calls (wld (snd (for_loop 4 list_bar)))
  = [Call_create 3 (Some load_bytes) 4 1 (Some 1);
     Call_update (Some 1) 1 1; Call_update (Some 1) 1 2;
     Call_update (Some 1) 1 3; Call_close (Some 1)].
Proof. reflexivity. Qed.

(** A generator is used up as the loop goes: over
    [asmqdm(g, desc="Load")], after [__iter__()] and one [__next__()],
    a loop receives what the generator has left, with one update for
    each of these elements, and a further loop receives nothing. *)
Example generator_is_consumed :
  __init__ generator_args RefEngine.fresh_world
  = (Return (self generator_bar), wld generator_bar) /\
  let c := after_ops generator_bar [Op_iter; Op_next] in
  iterable (self c) = Some (mk_iterable [20; 30]%nat false true) /\
  fst (for_loop 3 c) = Return [20; 30]%nat /\
  _ffi.calls (wld (snd (for_loop 3 c)))
  = [Call_create 0 (Some load_bytes) 4 1 (Some 1);
     Call_update (Some 1) 1 1; Call_update (Some 1) 1 2;
     Call_update (Some 1) 1 3; Call_close (Some 1)] /\
  for_loop 3 (snd (for_loop 3 c)) = (Return [], snd (for_loop 3 c)).
Proof. vm_compute. repeat split. Qed.

(** A description that UTF-8 cannot encode: [set_description] on the
    live [asmqdm(total=10, desc="Loading", async_render=True)] raises
    after [self.desc] has been set; the bytes object of "Loading" stays
    in place and nothing is called. *)
Example set_description_surrogate :
  has_surrogate lone_surrogate = true /\
  core.set_description (Some lone_surrogate) loading_bar
  = (Raise UnicodeEncodeError,
     mk_config (set_desc (Some lone_surrogate) (self loading_bar))
               (wld loading_bar)) /\
  fst (__init__ (mk_args (@None (@pyiterable nat)) (Some lone_surrogate) None
                         true false false false)
                RefEngine.fresh_world)
  = Raise UnicodeEncodeError.
Proof. repeat split. Qed.

(** [trange(2**63, disable=True)] raises OverflowError. *)
Example trange_overflow :
  match Range.trange [2 ^ 63] quiet_kwargs with
  | Some run =>
      run RefEngine.no_lib_world
      = (Raise OverflowError, RefEngine.no_lib_world)
  | None => False
  end.
Proof. reflexivity. Qed.

(** ** Further properties of the wrapper *)

Section MoreProperties.
Context {E : Engine}.
Context {T : Type}.

Local Abbreviation world := (@_ffi.world E).
Local Abbreviation config := (@core.config E T).
Local Abbreviation asmqdm := (@core.asmqdm T).
Local Abbreviation init_args := (@core.init_args T).

(** *** Exact steps of a loaded library *)

Lemma ffi_loaded {A} (f : eng -> A * eng) (log : A -> ffi_call) (w : world) :
  _ffi._lib w = true ->
  (_ffi._get_lib ;; _ffi.foreign f log) w
  = (Return (fst (f (_ffi.engine w))), engine_step f log w).
Proof.
  intros H. unfold bind, _ffi._get_lib. rewrite H. apply foreign_run.
Qed.

Lemma lift_ffi_loaded {A} (f : eng -> A * eng) (log : A -> ffi_call)
  (c : config) :
  _ffi._lib (wld c) = true ->
  lift (_ffi._get_lib ;; _ffi.foreign f log) c
  = (Return (fst (f (_ffi.engine (wld c)))),
     mk_config (self c) (engine_step f log (wld c))).
Proof. intros H. unfold lift. now rewrite (ffi_loaded f log (wld c) H). Qed.

Lemma same_core_refl (s : asmqdm) : same_core s s.
Proof. now repeat split. Qed.

Lemma update_live_did (k : Z) (c : config) :
  live (self c) = true -> _ffi._lib (wld c) = true ->
  exists (r : Z) (c' : config),
    update k c = (Return tt, c') /\ did (Updated k r) c c'.
Proof.
  intros L H. unfold update, bind, attr, id. rewrite L.
  destruct (_is_async (self c)) eqn:M.
  - unfold _ffi.update_async. rewrite (lift_ffi_loaded _ _ c H).
    do 2 eexists. split; [reflexivity |]. cbn.
    unfold update_call, close_call, same_core. rewrite M.
    repeat split; try reflexivity; assumption.
  - unfold _ffi.update. rewrite (lift_ffi_loaded _ _ c H).
    do 2 eexists. split; [reflexivity |]. cbn.
    unfold update_call, close_call, same_core. rewrite M.
    repeat split; try reflexivity; assumption.
Qed.

Lemma update_idle_did (k : Z) (c : config) :
  live (self c) = false ->
  exists c' : config,
    update k c = (Return tt, c') /\ did Nothing c c' /\
    n (self c') = n (self c) + k.
Proof.
  intros L. rewrite (update_not_live c k L). eexists. split; [reflexivity |].
  cbn. now repeat split.
Qed.

Lemma close_live_did (c : config) :
  live (self c) = true -> _ffi._lib (wld c) = true ->
  exists c' : config, close c = (Return tt, c') /\ did Closed c c'.
Proof.
  intros L H. unfold close, bind, attr, id. rewrite L.
  destruct (_is_async (self c)) eqn:M.
  - unfold _ffi.close_async. rewrite (lift_ffi_loaded _ _ c H).
    eexists. split; [reflexivity |]. cbn.
    unfold update_call, close_call, same_core. rewrite M.
    repeat split; try reflexivity; assumption.
  - unfold _ffi.close. rewrite (lift_ffi_loaded _ _ c H).
    eexists. split; [reflexivity |]. cbn.
    unfold update_call, close_call, same_core. rewrite M.
    repeat split; try reflexivity; assumption.
Qed.

Lemma close_idle_did (c : config) :
  live (self c) = false -> close c = (Return tt, c) /\ did Nothing c c.
Proof.
  intros L. split; [now apply close_not_live |]. cbn.
  split; [reflexivity |]. split; [apply same_core_refl | reflexivity].
Qed.

Lemma refresh_did (c : config) :
  ready c ->
  exists (h : happened) (c' : config),
    refresh c = (Return tt, c') /\ did h c c' /\
    (h = Rendered \/ h = Nothing).
Proof.
  intros R. unfold refresh, bind, attr, id.
  destruct (live (self c)) eqn:L.
  - unfold _ffi.render. rewrite (lift_ffi_loaded _ _ c (R L)).
    exists Rendered. eexists. split; [reflexivity |].
    split; [| now left]. cbn. repeat split; try reflexivity; auto.
  - exists Nothing, c. split; [reflexivity |].
    split; [| now right]. cbn.
    split; [reflexivity |]. split; [apply same_core_refl | reflexivity].
Qed.

(** The bytes object of a new description. *)
Lemma description_bytes_value (d : option string) (w : world) :
  encodable d ->
  exists (b : pybytes) (w' : world),
    description_bytes d w = (Return b, w') /\
    _ffi._lib w' = _ffi._lib w /\ _ffi.calls w' = _ffi.calls w /\
    _ffi.engine w' = _ffi.engine w /\
    ob_val b = match d with
               | Some str => list_byte_of_string str
               | None => []
               end.
Proof.
  unfold description_bytes, encode, ret, encodable.
  destruct d as [str |]; [destruct (str_truthy str) eqn:Hs |].
  - intros ->. do 2 eexists. repeat split.
  - intros _. do 2 eexists. repeat split.
    destruct str; [reflexivity | discriminate].
  - intros _. do 2 eexists. repeat split.
Qed.

(** [set_description] on a ready instance: a live instance and a
    description that can be encoded give one call; a live instance and a
    description that cannot be encoded give UnicodeEncodeError and no
    call; an instance that is not live gives no call. *)
Lemma set_description_did (d : option string) (c : config) :
  ready c ->
  exists (h : happened) (o : outcome unit) (c' : config),
    set_description d c = (o, c') /\ did h c c' /\
    desc (self c') = d /\
    ((live (self c) = true /\ encodable d /\ o = Return tt /\
      exists b, h = Described b /\
                ob_val b = match d with
                           | Some str => list_byte_of_string str
                           | None => []
                           end)
     \/ (live (self c) = true /\ ~ encodable d /\
         o = Raise UnicodeEncodeError /\ h = Nothing)
     \/ (live (self c) = false /\ o = Return tt /\ h = Nothing)).
Proof.
  intros R. destruct c as [s w].
  unfold set_description, bind, assign, modify, attr, id. cbn [self wld].
  change (live (set_desc d s)) with (live s).
  destruct (live s) eqn:L.
  - unfold rebind_desc_bytes, bind, lift at 1, assign, modify, ret.
    cbn [self wld].
    destruct (description_bytes_run d w)
      as [[Hb Hne] | (b0 & w0 & _ & _ & _ & _ & He)].
    + rewrite Hb. exists Nothing. do 2 eexists. split; [reflexivity |].
      split; [cbn; now repeat split |]. split; [reflexivity |].
      right. left. now repeat split.
    + destruct (description_bytes_value d w He)
        as (b & w1 & Hb & Hl & Hc & _ & Hv).
      rewrite Hb. cbn [self wld].
      assert (H1 : _ffi._lib w1 = true) by (rewrite Hl; exact (R L)).
      unfold _ffi.set_description.
      rewrite (lift_ffi_loaded _ _
                 (mk_config (set__desc_bytes (Some b) (set_desc d s)) w1) H1).
      exists (Described b). do 2 eexists. split; [reflexivity |].
      split; [| split; [reflexivity |
                         left; repeat split; try assumption; now exists b]].
      cbn. rewrite Hc. repeat split; try reflexivity; assumption.
  - exists Nothing. do 2 eexists. split; [reflexivity |].
    split; [| split; [reflexivity | right; right; now repeat split]].
    cbn. now repeat split.
Qed.

(** The wrapped iterator moving on is no call and touches none of the
    attributes that decide the calls. *)
Lemma did_moved (h : happened) (rest : list T) (c c' : config) :
  h <> Rendered -> did h c c' -> did h c (moved rest c').
Proof.
  intros Hr Hd.
  assert (Hk : disable (self (moved rest c')) = disable (self c') /\
               _state (self (moved rest c')) = _state (self c') /\
               _closed (self (moved rest c')) = _closed (self c') /\
               _is_async (self (moved rest c')) = _is_async (self c') /\
               total (self (moved rest c')) = total (self c') /\
               _desc_bytes (self (moved rest c')) = _desc_bytes (self c') /\
               n (self (moved rest c')) = n (self c') /\
               wld (moved rest c') = wld c').
  { unfold moved, advance. cbn [self wld].
    destruct (iterable (self c')) as [it |]; [destruct (one_shot it) |];
      repeat split. }
  destruct Hk as (K1 & K2 & K3 & K4 & K5 & K6 & K7 & K8).
  destruct h; cbn [did] in *; unfold same_core in *;
    rewrite ?K1, ?K2, ?K3, ?K4, ?K5, ?K6, ?K7, ?K8;
    [exact Hd | exact Hd | exact Hd | now elim Hr | exact Hd].
Qed.

Lemma next_did (c : config) :
  ready c ->
  match _iterator (self c) with
  | None => __next__ c = (Raise StopIteration, c)
  | Some [] =>
      exists (h : happened) (c' : config),
        __next__ c = (Raise StopIteration, c') /\ did h c c' /\
        _iterator (self c') = Some [] /\
        (h = Closed \/ h = Nothing)
  | Some (item :: rest) =>
      exists (h : happened) (c' : config),
        __next__ c = (Return item, c') /\ did h c c' /\
        _iterator (self c') = Some rest /\
        ((exists r, h = Updated 1 r) \/
         (h = Nothing /\ n (self c') = n (self c) + 1))
  end.
Proof.
  intros R.
  destruct (_iterator (self c)) as [[| item rest] |] eqn:Hi;
    unfold __next__, bind at 1, attr, id; rewrite Hi.
  - unfold try_except_StopIteration. cbn [next_item].
    unfold bind at 1, raise at 1. unfold bind, raise.
    destruct (live (self c)) eqn:L.
    + destruct (close_live_did c L (R L)) as (c' & H & Hd).
      rewrite H. exists Closed, c'. split; [reflexivity |].
      split; [exact Hd |]. split; [| now left].
      pose proof (close_with_iterator (Some []) c) as Hw.
      rewrite (with_iterator_same (Some []) c Hi), H in Hw.
      cbn [fst snd] in Hw. inversion Hw as [Hc]. rewrite Hc at 1.
      reflexivity.
    + destruct (close_idle_did c L) as (H & Hd).
      rewrite H. exists Nothing, c. split; [reflexivity |].
      split; [exact Hd |]. split; [exact Hi | now right].
  - unfold try_except_StopIteration. cbn [next_item].
    unfold bind, assign, modify, ret.
    change (mk_config (advance rest (self c)) (wld c)) with (moved rest c).
    rewrite update_moved.
    destruct (live (self c)) eqn:L.
    + destruct (update_live_did 1 c L (R L)) as (r & c' & H & Hd).
      rewrite H. cbn [fst snd].
      exists (Updated 1 r). eexists. split; [reflexivity |].
      split; [apply did_moved; [discriminate | exact Hd] |].
      split; [apply (moved_in_step rest c') |]. left. now exists r.
    + destruct (update_idle_did 1 c L) as (c' & H & Hd & Hn).
      rewrite H. cbn [fst snd].
      exists Nothing. eexists. split; [reflexivity |].
      split; [apply did_moved; [discriminate | exact Hd] |].
      split; [apply (moved_in_step rest c') |]. right.
      split; [reflexivity |]. rewrite <- Hn.
      unfold moved. cbn [self]. apply (advance_looks rest (self c')).
  - reflexivity.
Qed.

Lemma did_nothing_refl (c : config) : did Nothing c c.
Proof.
  cbn. split; [reflexivity |]. split; [apply same_core_refl | reflexivity].
Qed.

(** What each operation does on an instance that is ready. *)
Lemma op_did (o : op) (c : config) :
  ready c ->
  exists h : happened,
    did h c (after_op c o) /\
    fst (run_op o c) <> Raise OSError /\
    (fst (run_op o c) = Raise StopIteration <->
     o = Op_next /\
     (_iterator (self c) = None \/ _iterator (self c) = Some [])).
Proof.
  intros R. unfold after_op.
  destruct o; cbn [run_op]; unfold forget.
  - (* __iter__ *)
    exists Nothing. unfold __iter__, bind, attr, id.
    destruct (iterable (self c)) as [it |]; cbn.
    + split; [now repeat split |]. split; [discriminate |].
      split; [discriminate | intros [H _]; discriminate].
    + split; [now repeat split |]. split; [discriminate |].
      split; [discriminate | intros [H _]; discriminate].
  - (* __next__ *)
    pose proof (next_did c R) as H. unfold bind.
    destruct (_iterator (self c)) as [[| item rest] |] eqn:Hi.
    + destruct H as (h & c' & H & Hd & _). rewrite H. exists h. cbn.
      split; [exact Hd |]. split; [discriminate |].
      split; [intros _; split; [reflexivity | now right] | reflexivity].
    + destruct H as (h & c' & H & Hd & _). rewrite H. exists h. cbn.
      split; [exact Hd |]. split; [discriminate |].
      split; [discriminate | intros [_ [Hf | Hf]]; discriminate].
    + rewrite H. exists Nothing. cbn.
      split; [apply did_nothing_refl |]. split; [discriminate |].
      split; [intros _; split; [reflexivity | now left] | reflexivity].
  - (* __enter__ *)
    exists Nothing. cbn. split; [apply did_nothing_refl |].
    split; [discriminate |].
    split; [discriminate | intros [H _]; discriminate].
  - (* __exit__ *)
    unfold __exit__, bind.
    destruct (live (self c)) eqn:L.
    + destruct (close_live_did c L (R L)) as (c' & H & Hd). rewrite H.
      exists Closed. cbn [ret fst snd]. split; [exact Hd |].
      split; [discriminate |].
      split; [discriminate | intros [Hf _]; discriminate].
    + destruct (close_idle_did c L) as (H & Hd). rewrite H.
      exists Nothing. cbn [ret fst snd]. split; [exact Hd |].
      split; [discriminate |].
      split; [discriminate | intros [Hf _]; discriminate].
  - (* __len__ *)
    exists Nothing. cbn. split; [apply did_nothing_refl |].
    split; [discriminate |].
    split; [discriminate | intros [H _]; discriminate].
  - (* update *)
    destruct (live (self c)) eqn:L.
    + destruct (update_live_did k c L (R L)) as (r & c' & H & Hd). rewrite H.
      exists (Updated k r). cbn [fst snd]. split; [exact Hd |].
      split; [discriminate |].
      split; [discriminate | intros [Hf _]; discriminate].
    + destruct (update_idle_did k c L) as (c' & H & Hd & _). rewrite H.
      exists Nothing. cbn [fst snd]. split; [exact Hd |].
      split; [discriminate |].
      split; [discriminate | intros [Hf _]; discriminate].
  - (* close *)
    destruct (live (self c)) eqn:L.
    + destruct (close_live_did c L (R L)) as (c' & H & Hd). rewrite H.
      exists Closed. cbn [fst snd]. split; [exact Hd |].
      split; [discriminate |].
      split; [discriminate | intros [Hf _]; discriminate].
    + destruct (close_idle_did c L) as (H & Hd). rewrite H.
      exists Nothing. cbn [fst snd]. split; [exact Hd |].
      split; [discriminate |].
      split; [discriminate | intros [Hf _]; discriminate].
  - (* refresh *)
    destruct (refresh_did c R) as (h & c' & H & Hd & _). rewrite H.
    exists h. cbn [fst snd]. split; [exact Hd |].
    split; [discriminate |].
    split; [discriminate | intros [Hf _]; discriminate].
  - (* set_description *)
    destruct (set_description_did d c R)
      as (h & o & c' & H & Hd & _ & Ho). rewrite H.
    exists h. cbn [fst snd]. split; [exact Hd |].
    assert (Hp : o = Return tt \/ o = Raise UnicodeEncodeError).
    { destruct Ho as [(_ & _ & Ho & _) | [(_ & _ & Ho & _) | (_ & Ho & _)]];
        [now left | now right | now left]. }
    split; [destruct Hp as [-> | ->]; discriminate |].
    split; [destruct Hp as [-> | ->]; discriminate |
            intros [Hf _]; discriminate].
  - (* set_postfix *)
    exists Nothing. cbn. split; [apply did_nothing_refl |].
    split; [discriminate |].
    split; [discriminate | intros [H _]; discriminate].
  - (* format_dict *)
    exists Nothing. cbn. split; [apply did_nothing_refl |].
    split; [discriminate |].
    split; [discriminate | intros [H _]; discriminate].
Qed.

(** *** What the operations keep *)

Lemma same_core_live (s s' : asmqdm) : same_core s s' -> live s' = live s.
Proof. intros (_ & Hs & Hc & _). unfold live. now rewrite Hs, Hc. Qed.

Lemma did_live (h : happened) (c c' : config) :
  did h c c' -> live (self c') = true ->
  live (self c) = true /\ _state (self c') = _state (self c).
Proof.
  destruct h; cbn.
  - intros (_ & Hs & _) L. rewrite (same_core_live _ _ Hs) in L.
    split; [exact L | apply Hs].
  - intros (L0 & _ & _ & Hs & _) _. split; [exact L0 | apply Hs].
  - intros (_ & _ & _ & Hs & _) L. unfold live in L. rewrite Hs in L.
    discriminate.
  - intros (L0 & _ & _ & Hs) _. rewrite Hs. now split.
  - intros (L0 & _ & _ & Hs & _) _. split; [exact L0 | apply Hs].
Qed.

Lemma did_ready (h : happened) (c c' : config) :
  did h c c' -> ready c -> ready c'.
Proof.
  intros Hd R L. destruct (did_live h c c' Hd L) as [L0 _].
  destruct h; cbn in Hd.
  - destruct Hd as (Hw & _). rewrite Hw. exact (R L0).
  - apply Hd.
  - apply Hd.
  - apply Hd.
  - apply Hd.
Qed.

Lemma did_mode (h : happened) (c c' : config) :
  did h c c' -> _is_async (self c') = _is_async (self c).
Proof.
  destruct h; cbn.
  - intros (_ & Hs & _). apply Hs.
  - intros (_ & _ & _ & Hs & _). apply Hs.
  - intros (_ & _ & _ & _ & _ & _ & Hm & _). exact Hm.
  - intros (_ & _ & _ & Hs). now rewrite Hs.
  - intros (_ & _ & _ & Hs & _). apply Hs.
Qed.

Lemma installed_desc_app (st : option handle) (l1 l2 : list ffi_call)
  (cur : option pybytes) :
  installed_desc st (l1 ++ l2) cur
  = installed_desc st l2 (installed_desc st l1 cur).
Proof.
  revert cur. induction l1 as [| call l1 IH]; intros cur; [reflexivity |].
  destruct call; cbn; apply IH.
Qed.

Lemma same_state_refl (st : option handle) : same_state st st = true.
Proof. destruct st as [h |]; cbn; [apply Z.eqb_refl | reflexivity]. Qed.

Lemma update_call_mode (s : asmqdm) (k r : Z) :
  mode_call (_is_async s) (update_call s k r).
Proof. unfold update_call. now destruct (_is_async s). Qed.

Lemma close_call_mode (s : asmqdm) : mode_call (_is_async s) (close_call s).
Proof. unfold close_call. now destruct (_is_async s). Qed.

Lemma did_steady (base : list ffi_call) (async : bool) (h : happened)
  (c c' : config) :
  did h c c' -> steady base async c -> steady base async c'.
Proof.
  intros Hd (M & R & log & C & F & K).
  split; [rewrite (did_mode h c c' Hd); exact M |].
  split; [exact (did_ready h c c' Hd R) |].
  destruct h; cbn in Hd.
  - destruct Hd as (Hw & Hs & Hb). exists log. rewrite Hw.
    split; [exact C |]. split; [exact F |].
    intros L. rewrite (same_core_live _ _ Hs) in L.
    destruct Hs as (_ & Hs & _). rewrite Hs, Hb. exact (K L).
  - destruct Hd as (L0 & Hc & _ & Hs & Hb & _).
    exists (log ++ [update_call (self c) k r]).
    split; [rewrite Hc, C; now rewrite app_assoc |].
    split; [apply Forall_app; split; [exact F |];
            constructor; [| constructor];
            rewrite <- M; apply update_call_mode |].
    intros _. destruct Hs as (_ & Hs & _).
    rewrite installed_desc_app, Hs, Hb, (K L0).
    unfold update_call. now destruct (_is_async (self c)).
  - destruct Hd as (L0 & Hc & _ & Hs & _).
    exists (log ++ [close_call (self c)]).
    split; [rewrite Hc, C; now rewrite app_assoc |].
    split; [apply Forall_app; split; [exact F |];
            constructor; [| constructor];
            rewrite <- M; apply close_call_mode |].
    intros L. unfold live in L. rewrite Hs in L. discriminate.
  - destruct Hd as (L0 & Hc & _ & Hs).
    exists (log ++ [Call_render (_state (self c))]).
    split; [rewrite Hc, C; now rewrite app_assoc |].
    split; [apply Forall_app; split; [exact F |];
            constructor; [exact I | constructor] |].
    intros _. rewrite installed_desc_app, Hs, (K L0). reflexivity.
  - destruct Hd as (L0 & Hc & _ & Hs & Hb & _).
    exists (log ++ [Call_set_description (_state (self c)) b
                                         (c_int64 (bytes_len b))]).
    split; [rewrite Hc, C; now rewrite app_assoc |].
    split; [apply Forall_app; split; [exact F |];
            constructor; [exact I | constructor] |].
    intros _. destruct Hs as (_ & Hs & _).
    rewrite installed_desc_app, Hs, Hb. cbn.
    now rewrite same_state_refl.
Qed.

Lemma steady_steps (base : list ffi_call) (async : bool) (os : list op)
  (c : config) :
  steady base async c -> steady base async (after_ops c os).
Proof.
  revert c. induction os as [| o os IH]; intros c S; [exact S |].
  cbn. apply IH.
  destruct S as (M & R & S).
  destruct (op_did o c R) as (h & Hd & _).
  exact (did_steady base async h c _ Hd (conj M (conj R S))).
Qed.

(** *** The call that creates the state *)

Lemma ffi_return_inv {A} (f : eng -> A * eng) (log : A -> ffi_call)
  (w w' : world) (r : A) :
  (_ffi._get_lib ;; _ffi.foreign f log) w = (Return r, w') ->
  r = fst (f (_ffi.engine w)) /\
  _ffi.calls w' = _ffi.calls w ++ [log r] /\
  _ffi._lib w' = true /\
  _ffi.next_id w' = _ffi.next_id w.
Proof.
  unfold bind, _ffi._get_lib, _ffi._find_library, modify.
  destruct (_ffi._lib w) eqn:Hl.
  - rewrite foreign_run. intros H; inversion H; subst. cbn. now repeat split.
  - unfold bind. destruct (_ffi.lib_found w); [| discriminate].
    rewrite foreign_run. intros H; inversion H; subst. cbn. now repeat split.
Qed.

Lemma init_exact (a : init_args) (w w0 : world) (s : asmqdm) :
  __init__ a w = (Return s, w0) ->
  arg_disable a = false ->
  _is_async s = arg_async_render a /\
  _desc_bytes s
  = match arg_desc a with
    | Some str =>
        if str_truthy str
        then Some (mk_bytes (_ffi.next_id w) (list_byte_of_string str))
        else None
    | None => None
    end /\
  _ffi.calls w0
  = _ffi.calls w
      ++ [create_call (arg_async_render a) (init_total a) (_desc_bytes s)
                      (enabled_flags (arg_leave a) (arg_ascii a)
                                     (arg_async_render a))
                      (_state s)] /\
  _ffi._lib w0 = true.
Proof.
  intros H D. unfold __init__ in H. rewrite D in H. cbn [negb] in H.
  unfold bind at 1 in H.
  destruct (init_desc_bytes (arg_desc a) w) as [[db | e] w1] eqn:Hd;
    [| discriminate].
  assert (Hv : _ffi.calls w1 = _ffi.calls w /\
               db = match arg_desc a with
                    | Some str =>
                        if str_truthy str
                        then Some (mk_bytes (_ffi.next_id w)
                                            (list_byte_of_string str))
                        else None
                    | None => None
                    end).
  { unfold init_desc_bytes, encode, bind, ret in Hd.
    destruct (arg_desc a) as [str |];
      [destruct (str_truthy str); [destruct (has_surrogate str) |] |];
      inversion Hd; subst; now split. }
  destruct Hv as (Hc1 & Hdb).
  rewrite <- Hdb. unfold create_call, enabled_flags.
  destruct (arg_async_render a); unfold bind in H.
  - unfold _ffi.create_async in H.
    match type of H with
    | context [(_ffi._get_lib ;; _ffi.foreign ?f ?log) w1] =>
        destruct ((_ffi._get_lib ;; _ffi.foreign f log) w1)
          as [[st | e] w2] eqn:Hr; [| discriminate];
        destruct (ffi_return_inv f log w1 w2 st Hr) as (_ & Hc2 & Hl & _)
    end.
    unfold ret in H. inversion H; subst s w0. cbn.
    repeat split; try assumption. rewrite Hc2, Hc1.
    destruct (arg_leave a), (arg_ascii a); reflexivity.
  - unfold _ffi.create in H.
    match type of H with
    | context [(_ffi._get_lib ;; _ffi.foreign ?f ?log) w1] =>
        destruct ((_ffi._get_lib ;; _ffi.foreign f log) w1)
          as [[st | e] w2] eqn:Hr; [| discriminate];
        destruct (ffi_return_inv f log w1 w2 st Hr) as (_ & Hc2 & Hl & _)
    end.
    unfold ret in H. inversion H; subst s w0. cbn.
    repeat split; try assumption. rewrite Hc2, Hc1.
    destruct (arg_leave a), (arg_ascii a); reflexivity.
Qed.

(** X1. The call that creates the state.  When [__init__] returns an
    instance that is not disabled, it has made exactly one call: the
    creating call of the chosen mode, with the total, the flags of the
    options, and as description the very bytes object that
    [self._desc_bytes] keeps alive, with its length; that object is new
    and holds the bytes of [desc], and there is none (NULL, length 0)
    when [desc] is [None] or empty.  The library is loaded afterwards. *)
Theorem init_call (a : init_args) (w w0 : world) (s : asmqdm) :
  __init__ a w = (Return s, w0) ->
  arg_disable a = false ->
  _is_async s = arg_async_render a /\
  _desc_bytes s
  = match arg_desc a with
    | Some str =>
        if str_truthy str
        then Some (mk_bytes (_ffi.next_id w) (list_byte_of_string str))
        else None
    | None => None
    end /\
  _ffi.calls w0
  = _ffi.calls w
      ++ [create_call (arg_async_render a) (init_total a) (_desc_bytes s)
                      (enabled_flags (arg_leave a) (arg_ascii a)
                                     (arg_async_render a))
                      (_state s)] /\
  _ffi._lib w0 = true.
Proof. exact (init_exact a w w0 s). Qed.

Lemma init_mode (a : init_args) (w w0 : world) (s : asmqdm) :
  __init__ a w = (Return s, w0) ->
  _is_async s = negb (arg_disable a) && arg_async_render a.
Proof.
  intros H. destruct (arg_disable a) eqn:D.
  - rewrite (init_disabled a w D) in H. inversion H. reflexivity.
  - cbn. apply (init_exact a w w0 s H D).
Qed.

Lemma init_steady (a : init_args) (w w0 : world) (s : asmqdm) :
  __init__ a w = (Return s, w0) ->
  steady (_ffi.calls w) (_is_async s) (mk_config s w0).
Proof.
  intros H. split; [reflexivity |].
  destruct (arg_disable a) eqn:D.
  - rewrite (init_disabled a w D) in H. inversion H; subst.
    split; [intros L; discriminate L |].
    exists []. rewrite app_nil_r. split; [reflexivity |].
    split; [constructor | intros L; discriminate L].
  - destruct (init_exact a w w0 s H D) as (M & _ & C & Hl).
    split; [intros _; exact Hl |].
    eexists. split; [exact C |]. cbn [self].
    split.
    + constructor; [| constructor]. rewrite M. unfold create_call.
      now destruct (arg_async_render a).
    + intros _. unfold create_call.
      destruct (arg_async_render a); cbn; now rewrite same_state_refl.
Qed.

(** X2. Once the instance exists, no operation raises OSError, whatever the
    sequence of operations before it; StopIteration is raised exactly by
    [__next__] when [__iter__] has not been called on an iterable or
    when the wrapped iterator is exhausted, and by no other
    operation. *)
Theorem operations_raise_only_stop_iteration (a : init_args) (w w0 : world)
  (s0 : asmqdm) (os : list op) (o : op) :
  __init__ a w = (Return s0, w0) ->
  let c := after_ops (mk_config s0 w0) os in
  fst (run_op o c) <> Raise OSError /\
  (fst (run_op o c) = Raise StopIteration <->
   o = Op_next /\
   (_iterator (self c) = None \/ _iterator (self c) = Some [])).
Proof.
  intros H c.
  pose proof (steady_steps _ _ os _ (init_steady a w w0 s0 H)) as (_ & R & _).
  destruct (op_did o c R) as (h & _ & Hno & Hstop). now split.
Qed.

(** X3. Between the operations, the description buffer whose address the
    engine holds for a live instance is the bytes object that
    [self._desc_bytes] refers to: whatever operations were applied since
    the creation, the wrapper keeps alive what the engine reads. *)
Theorem description_kept_alive_between_operations (a : init_args)
  (w w0 : world) (s0 : asmqdm) (os : list op) :
  __init__ a w = (Return s0, w0) ->
  let c := after_ops (mk_config s0 w0) os in
  live (self c) = true ->
  exists log : list ffi_call,
    _ffi.calls (wld c) = _ffi.calls w ++ log /\
    installed_desc (_state (self c)) log None = _desc_bytes (self c).
Proof.
  intros H c L.
  pose proof (steady_steps _ _ os _ (init_steady a w w0 s0 H))
    as (_ & _ & log & C & _ & K).
  exists log. split; [exact C | exact (K L)].
Qed.

(** X4. The mode is fixed at creation: [_is_async] is [async_render] for an
    instance that is not disabled and false for a disabled one, it never
    changes, and every call since the creation is of that mode: a
    synchronous instance never calls [create_async], [update_async] or
    [close_async], an asynchronous one never calls [create], [update] or
    [close]. *)
Theorem calls_follow_mode (a : init_args) (w w0 : world) (s0 : asmqdm)
  (os : list op) :
  __init__ a w = (Return s0, w0) ->
  let c := after_ops (mk_config s0 w0) os in
  let async := negb (arg_disable a) && arg_async_render a in
  _is_async (self c) = async /\
  exists log : list ffi_call,
    _ffi.calls (wld c) = _ffi.calls w ++ log /\
    Forall (mode_call async) log.
Proof.
  intros H c async.
  pose proof (steady_steps _ _ os _ (init_steady a w w0 s0 H))
    as (M & _ & log & C & F & _).
  fold c in M, C. rewrite (init_mode a w w0 s0 H) in M, F.
  split; [exact M |]. now exists log.
Qed.

(** *** Updating and closing a live instance *)

(** X5. On a live instance, any operations after its creation,
    [update(k)] makes exactly one call, the update of the instance's
    mode with the increment as a 64-bit integer, and stores what the
    engine returned in [n]: the count of a live instance is the engine's,
    not a sum kept by the wrapper.  The instance stays live and keeps
    its total. *)
Theorem update_live_takes_engine_count (a : init_args) (w w0 : world)
  (s0 : asmqdm) (os : list op) (k : Z) :
  __init__ a w = (Return s0, w0) ->
  let c := after_ops (mk_config s0 w0) os in
  live (self c) = true ->
  exists (r : Z) (c' : config),
    update k c = (Return tt, c') /\
    _ffi.calls (wld c') = _ffi.calls (wld c) ++ [update_call (self c) k r] /\
    n (self c') = r /\
    live (self c') = true /\ total (self c') = total (self c).
Proof.
  intros H c L.
  pose proof (steady_steps _ _ os _ (init_steady a w w0 s0 H)) as (_ & R & _).
  destruct (update_live_did k c L (R L)) as (r & c' & Hu & Hd).
  exists r, c'. cbn in Hd. destruct Hd as (_ & Hc & _ & Hs & _ & Hn).
  split; [exact Hu |]. split; [exact Hc |]. split; [exact Hn |].
  split; [rewrite (same_core_live _ _ Hs); exact L | apply Hs].
Qed.

(** X6. On a live instance, any operations after its creation, [close]
    makes exactly one call, the close of the instance's mode on the held
    state, drops the state and marks the instance closed; the count, the
    total and the description buffer stay readable. *)
Theorem close_live_releases_once (a : init_args) (w w0 : world)
  (s0 : asmqdm) (os : list op) :
  __init__ a w = (Return s0, w0) ->
  let c := after_ops (mk_config s0 w0) os in
  live (self c) = true ->
  exists c' : config,
    close c = (Return tt, c') /\
    _ffi.calls (wld c') = _ffi.calls (wld c) ++ [close_call (self c)] /\
    _state (self c') = None /\ _closed (self c') = true /\
    n (self c') = n (self c) /\ total (self c') = total (self c) /\
    _desc_bytes (self c') = _desc_bytes (self c).
Proof.
  intros H c L.
  pose proof (steady_steps _ _ os _ (init_steady a w w0 s0 H)) as (_ & R & _).
  destruct (close_live_did c L (R L)) as (c' & Hu & Hd).
  exists c'. cbn in Hd.
  destruct Hd as (_ & Hc & _ & Hs & Hcl & _ & _ & Ht & Hb & Hn).
  now repeat split.
Qed.

(** *** Loops on an instance that is not live *)

Lemma updates_then_close_idle (k : nat) (c : config) :
  live (self c) = false ->
  updates_then_close k c
  = (Return tt,
     mk_config (set_n (n (self c) + Z.of_nat k) (self c)) (wld c)).
Proof.
  revert c. induction k as [| k IH]; intros [s w] L; cbn [self wld] in *.
  - cbn [updates_then_close]. rewrite close_not_live by exact L.
    f_equal. f_equal. destruct s; unfold set_n; cbn.
    now rewrite Z.add_0_r.
  - cbn [updates_then_close]. unfold bind.
    rewrite update_not_live by exact L. cbn [self wld].
    rewrite IH by (cbn [self]; now rewrite live_set_n).
    cbn [self wld]. f_equal. f_equal. unfold set_n; cbn. f_equal. lia.
Qed.

(** A loop to the end on an instance that is not live: the elements, no
    call, and [n] moved on by their number. *)
Lemma for_loop_idle (c : config) (it : pyiterable) (extra : nat) :
  live (self c) = false ->
  iterable (self c) = Some it ->
  for_loop (S (List.length (items it) + extra)) c
  = (Return (items it),
     moved [] (mk_config (set_n (n (self c) + len it) (self c)) (wld c))).
Proof.
  intros L Hit.
  rewrite (for_loop_exhausts c it extra (usable_idle c L) Hit).
  now rewrite (updates_then_close_idle _ c L).
Qed.

(** X8. A disabled instance over an iterable: a loop that runs to the end
    receives the elements in order and leaves [n] at their number, which
    is the total when the total was taken from the length; the
    process-wide state is untouched, and [_closed] stays false, since
    [close] has nothing to release. *)
Theorem disabled_loop_counts (a : init_args) (w : world) (it : pyiterable)
  (extra : nat) :
  arg_disable a = true ->
  arg_iterable a = Some it ->
  exists s0 s1 : asmqdm,
    __init__ a w = (Return s0, w) /\
    for_loop (S (List.length (items it) + extra)) (mk_config s0 w)
    = (Return (items it), mk_config s1 w) /\
    n s1 = len it /\
    _closed s1 = false /\
    (arg_total a = None -> has_len it = true -> n s1 = total s1).
Proof.
  intros D Hit. do 2 eexists.
  split; [apply (init_disabled a w D) |].
  split.
  - rewrite (for_loop_idle _ it extra) by (try reflexivity; exact Hit).
    unfold moved. cbn [self wld]. reflexivity.
  - match goal with
    | |- context [advance ?r ?s] =>
        destruct (advance_looks r s) as (_ & _ & _ & Hn);
        destruct (advance_keeps r s) as (_ & _ & Hc);
        assert (Ht : total (advance r s) = total s)
          by (unfold advance; destruct (iterable s) as [i |];
              [destruct (one_shot i) |]; reflexivity)
    end.
    rewrite Hn, Hc, Ht. cbn.
    split; [reflexivity |]. split; [reflexivity |].
    intros Hnone Hl. unfold init_total. now rewrite Hnone, Hit, Hl.
Qed.

(** X9. An instance that wraps no iterable: a loop over it receives nothing
    and changes nothing; in particular it does not call [close], so a
    live instance stays live. *)
Theorem loop_without_iterable (c : config) (brk : nat) :
  iterable (self c) = None ->
  _iterator (self c) = None ->
  for_loop brk c = (Return [], c).
Proof.
  intros Hit Hi. unfold for_loop, bind, __iter__ at 1, attr, id.
  unfold bind. rewrite Hit. unfold ret at 1.
  destruct brk as [| brk]; [reflexivity |].
  rewrite for_body_step. unfold __next__, bind, attr, id. now rewrite Hi.
Qed.

Lemma update_keeps_iterable (k : Z) (c : config) :
  iterable (self (snd (update k c))) = iterable (self c).
Proof.
  destruct c as [s w]. unfold update, bind, attr, id. cbn [self].
  destruct (live s); [| reflexivity].
  destruct (_is_async s); unfold lift; cbn [self wld].
  - destruct (_ffi.update_async (_state s) k w) as [[r | e] w']; reflexivity.
  - destruct (_ffi.update (_state s) k w) as [[r | e] w']; reflexivity.
Qed.

Lemma close_keeps_iterable (c : config) :
  iterable (self (snd (close c))) = iterable (self c).
Proof.
  destruct c as [s w]. unfold close, bind, attr, id. cbn [self].
  destruct (live s); [| reflexivity].
  destruct (_is_async s); unfold lift; cbn [self wld].
  - destruct (_ffi.close_async (_state s) w) as [[r | e] w']; reflexivity.
  - destruct (_ffi.close (_state s) w) as [[r | e] w']; reflexivity.
Qed.

Lemma updates_then_close_keeps_iterable (k : nat) (c : config) :
  iterable (self (snd (updates_then_close k c))) = iterable (self c).
Proof.
  revert c. induction k as [| k IH]; intros c; cbn [updates_then_close].
  - apply close_keeps_iterable.
  - unfold bind. pose proof (update_keeps_iterable 1 c) as Hk.
    destruct (update 1 c) as [[[] | e] c']; cbn [snd] in *;
      [now rewrite IH | exact Hk].
Qed.

(** X10. Iterating a second time.  After a loop over the wrapped
    iterable has run to the end, the instance is not live, and it is
    closed if it was live before.  A second loop over the same instance
    makes no call.  Over an iterable that can be iterated again (a list,
    a range) it receives the same elements again and adds their number
    to what the first loop left in [n]; over a generator or another
    iterator, which the first loop has used up, it receives nothing and
    changes nothing. *)
Theorem second_loop_counts_on (c : config) (it : pyiterable)
  (extra1 extra2 : nat) :
  usable c ->
  iterable (self c) = Some it ->
  let c1 := snd (for_loop (S (List.length (items it) + extra1)) c) in
  live (self c1) = false /\
  (live (self c) = true ->
   _state (self c1) = None /\ _closed (self c1) = true) /\
  (one_shot it = false ->
   for_loop (S (List.length (items it) + extra2)) c1
   = (Return (items it),
      mk_config (set__iterator (Some [])
                   (set_n (n (self c1) + len it) (self c1)))
                (wld c1))) /\
  (one_shot it = true ->
   forall brk : nat, for_loop brk c1 = (Return [], c1)).
Proof.
  intros U Hit c1.
  assert (Hc1 : c1 = moved []
                       (snd (updates_then_close (List.length (items it)) c)))
    by (unfold c1; now rewrite (for_loop_exhausts c it extra1 U Hit)).
  set (c0 := snd (updates_then_close (List.length (items it)) c)) in *.
  destruct (updates_then_close_goes (List.length (items it)) c U) as (_ & L0).
  fold c0 in L0.
  destruct (moved_fields [] c0) as (Hl1 & Hs1 & Hk1).
  assert (L1 : live (self c1) = false) by (rewrite Hc1; congruence).
  assert (Hi0 : iterable (self c0) = Some it)
    by (unfold c0; now rewrite updates_then_close_keeps_iterable).
  split; [exact L1 |]. split.
  - intros L. rewrite Hc1, Hs1, Hk1.
    now apply updates_then_close_releases.
  - split.
    + intros Ho.
      assert (Hi1 : iterable (self c1) = Some it)
        by (rewrite Hc1; unfold moved, advance; cbn [self];
            now rewrite Hi0, Ho).
      rewrite (for_loop_idle c1 it extra2 L1 Hi1).
      f_equal. unfold moved, advance. cbn [self wld iterable set_n].
      now rewrite Hi1, Ho.
    + intros Ho brk.
      assert (Hi1 : iterable (self c1)
                    = Some (mk_iterable [] (has_len it) true))
        by (rewrite Hc1; unfold moved, advance; cbn [self];
            now rewrite Hi0, Ho).
      assert (Hin : in_step [] c1) by (rewrite Hc1; apply moved_in_step).
      unfold for_loop, bind. rewrite (iter_positions c1 _ Hi1).
      cbn [items]. rewrite (with_iterator_same (Some []) c1 (proj1 Hin)).
      destruct brk as [| brk]; [reflexivity |].
      rewrite for_body_step.
      rewrite (next_ends c1 (usable_idle c1 L1) (proj1 Hin)).
      now rewrite (close_not_live c1 L1).
Qed.

(** *** The calls of a whole loop *)

Lemma update_call_core (s s' : asmqdm) (k r : Z) :
  same_core s s' -> update_call s' k r = update_call s k r.
Proof.
  intros (_ & Hs & _ & Hm & _). unfold update_call. now rewrite Hs, Hm.
Qed.

Lemma close_call_core (s s' : asmqdm) :
  same_core s s' -> close_call s' = close_call s.
Proof.
  intros (_ & Hs & _ & Hm & _). unfold close_call. now rewrite Hs, Hm.
Qed.

Lemma loaded_loadable (w : world) : _ffi._lib w = true -> loadable w.
Proof. intros H. now left. Qed.

Lemma last_default (l : list Z) (a d d' : Z) :
  last (a :: l) d = last (a :: l) d'.
Proof.
  revert a. induction l as [| b l IH]; intros a; [reflexivity |].
  change (last (b :: l) d = last (b :: l) d'). apply IH.
Qed.

Lemma last_cons (l : list Z) (a d : Z) : last (a :: l) d = last l a.
Proof.
  destruct l as [| b l]; [reflexivity |].
  change (last (b :: l) d = last (b :: l) a). apply last_default.
Qed.

Lemma moved_core (rest : list T) (c : config) :
  same_core (self c) (self (moved rest c)) /\
  n (self (moved rest c)) = n (self c).
Proof.
  unfold moved, advance, same_core. cbn [self].
  destruct (iterable (self c)) as [it |]; [destruct (one_shot it) |];
    repeat split.
Qed.

Lemma for_body_live_log (rest : list T) (extra : nat) (c : config) :
  _ffi._lib (wld c) = true ->
  live (self c) = true ->
  in_step rest c ->
  exists (rs : list Z) (c' : config),
    for_body (S (List.length rest + extra)) c = (Return rest, c') /\
    List.length rs = List.length rest /\
    _ffi.calls (wld c')
    = _ffi.calls (wld c)
        ++ map (update_call (self c) 1) rs ++ [close_call (self c)] /\
    _state (self c') = None /\ _closed (self c') = true /\
    n (self c') = last rs (n (self c)).
Proof.
  revert c. induction rest as [| item rest IH]; intros c Hl L Hin.
  - cbn [List.length Nat.add]. rewrite for_body_step.
    rewrite (next_ends c (fun _ => loaded_loadable _ Hl) (proj1 Hin)).
    destruct (close_live_did c L Hl) as (c' & H & Hd). rewrite H. cbn [snd].
    cbn [did] in Hd.
    destruct Hd as (_ & Hc & _ & Hs & Hcl & _ & _ & _ & _ & Hn).
    exists [], c'. now repeat split.
  - cbn [List.length Nat.add]. rewrite for_body_step.
    rewrite (next_gives item rest c (fun _ => loaded_loadable _ Hl)
               (proj1 Hin)).
    destruct (update_live_did 1 c L Hl) as (r & c1 & H & Hd). rewrite H.
    cbn [snd]. cbn [did] in Hd. destruct Hd as (_ & Hc & Hl1 & Hs & _ & Hn).
    destruct (moved_core rest c1) as (Hm & Hnm).
    assert (L1 : live (self (moved rest c1)) = true)
      by (rewrite (same_core_live _ _ Hm), (same_core_live _ _ Hs);
          exact L).
    destruct (IH (moved rest c1) Hl1 L1 (moved_in_step rest c1))
      as (rs & c' & Hf & Hlen & Hc' & Hst & Hcl & Hn').
    unfold bind. rewrite Hf. unfold ret.
    exists (r :: rs), c'. split; [reflexivity |].
    split; [cbn; now rewrite Hlen |].
    split.
    + rewrite Hc'. change (wld (moved rest c1)) with (wld c1). rewrite Hc.
      rewrite (close_call_core _ _ Hm), (close_call_core _ _ Hs).
      rewrite (map_ext _ _
                 (fun r0 => eq_trans (update_call_core _ _ 1 r0 Hm)
                                     (update_call_core _ _ 1 r0 Hs))).
      cbn [map]. now rewrite <- app_assoc.
    + split; [exact Hst |]. split; [exact Hcl |].
      rewrite Hn', Hnm, Hn. symmetry. apply last_cons.
Qed.

(** X7. What the engine sees of a whole loop.  Over a live instance, any
    operations after its creation, a loop that runs to the end of the
    wrapped iterable receives its elements in order and makes exactly
    one update call with increment 1 per element, each of the
    instance's mode and on the held state, followed by one close call;
    it leaves the state released, the instance closed, and in [n] the
    count that the engine returned last. *)
Theorem full_loop_calls_engine (a : init_args) (w w0 : world) (s0 : asmqdm)
  (os : list op) (it : pyiterable) (extra : nat) :
  __init__ a w = (Return s0, w0) ->
  let c := after_ops (mk_config s0 w0) os in
  live (self c) = true ->
  iterable (self c) = Some it ->
  exists (rs : list Z) (c' : config),
    for_loop (S (List.length (items it) + extra)) c
    = (Return (items it), c') /\
    List.length rs = List.length (items it) /\
    _ffi.calls (wld c')
    = _ffi.calls (wld c)
        ++ map (update_call (self c) 1) rs ++ [close_call (self c)] /\
    _state (self c') = None /\ _closed (self c') = true /\
    n (self c') = last rs (n (self c)).
Proof.
  intros H c L Hit.
  pose proof (steady_steps _ _ os _ (init_steady a w w0 s0 H)) as (_ & R & _).
  fold c in R. unfold for_loop, bind. rewrite (iter_positions c it Hit).
  exact (for_body_live_log (items it) extra
           (with_iterator (Some (items it)) c) (R L) L
           (proj1 (iter_in_step c it Hit))).
Qed.

Lemma set_description_keeps (d : option string) (c : config) :
  exists (o : outcome unit) (c' : config),
    set_description d c = (o, c') /\
    desc (self c') = d /\ n (self c') = n (self c) /\
    total (self c') = total (self c).
Proof.
  destruct c as [s w].
  unfold set_description, bind, assign, modify, attr, id. cbn [self wld].
  destruct (live (set_desc d s)).
  - unfold rebind_desc_bytes, bind, lift at 1, assign, modify, ret.
    cbn [self wld].
    destruct (description_bytes_run d w)
      as [[Hb _] | (b & w1 & Hb & _)]; rewrite Hb;
      [do 2 eexists; split; [reflexivity |]; repeat split; reflexivity |].
    cbn [self wld]. unfold lift. cbn [self wld].
    destruct (_ffi.set_description (_state (set_desc d s)) b w1)
      as [[[] | e] w2]; do 2 eexists; (split; [reflexivity |]);
      repeat split; reflexivity.
  - do 2 eexists. split; [reflexivity |]. repeat split; reflexivity.
Qed.

(** X11. [set_description] records the description in [self.desc] whatever
    the state of the instance and whatever the outcome of the call, and
    [format_dict] then shows it with the count and the total as they
    were.  On an instance that is not live (disabled, or closed) that is
    all it does: [self._desc_bytes] is left alone and nothing is
    called. *)
Theorem set_description_records (d : option string) (c : config) :
  desc (self (snd (set_description d c))) = d /\
  format_dict (snd (set_description d c))
  = (Return (n (self c), total (self c), d), snd (set_description d c)) /\
  (live (self c) = false ->
   set_description d c
   = (Return tt, mk_config (set_desc d (self c)) (wld c))).
Proof.
  destruct (set_description_keeps d c) as (o & c' & H & Hd & Hn & Ht).
  rewrite H. cbn [snd].
  split; [exact Hd |]. split.
  - unfold format_dict, bind, attr, id, ret. now rewrite Hd, Hn, Ht.
  - intros L. rewrite <- H.
    unfold set_description, bind, assign, modify, attr, id. cbn [self wld].
    change (live (set_desc d (self c))) with (live (self c)). now rewrite L.
Qed.

(** *** The functions of _ffi on their own *)

(** X16. The flags word can be read back: bit 0 is [leave], bit 1 is
    [disable], bit 2 is [ascii_only], bit 5 tells [create_async] from
    [create], every other bit is clear, and the conversion to an
    unsigned 64-bit integer changes nothing.  So [_ffi.create] does
    send DISABLE when asked to, and two calls send the same word only
    for the same options. *)
Theorem flags_read_back (leave disable ascii_only : bool) :
  let sync := _ffi.create_flags leave disable ascii_only in
  let async := _ffi.create_async_flags leave disable ascii_only in
  (Z.testbit sync 0 = leave /\ Z.testbit sync 1 = disable /\
   Z.testbit sync 2 = ascii_only /\ Z.testbit sync 5 = false) /\
  (Z.testbit async 0 = leave /\ Z.testbit async 1 = disable /\
   Z.testbit async 2 = ascii_only /\ Z.testbit async 5 = true) /\
  (forall i, i <> 0 -> i <> 1 -> i <> 2 -> i <> 5 ->
             Z.testbit sync i = false /\ Z.testbit async i = false) /\
  c_uint64 sync = sync /\ c_uint64 async = async.
Proof.
  cbv zeta. split; [| split; [| split]].
  - destruct leave, disable, ascii_only; repeat split; reflexivity.
  - destruct leave, disable, ascii_only; repeat split; reflexivity.
  - intros i H0 H1 H2 H5.
    destruct (Z.ltb_spec i 0) as [Hn | Hn].
    + split; apply Z.testbit_neg_r; exact Hn.
    + assert (H6 : i = 3 \/ i = 4 \/ 6 <= i) by lia.
      assert (Hb : forall z, 0 <= z < 64 -> 6 <= i -> Z.testbit z i = false).
      { intros z Hz Hi. apply Z.testbit_false; [lia |].
        assert (H64 : 2 ^ 6 = 64) by reflexivity.
        assert (Hp : 2 ^ 6 <= 2 ^ i) by (apply Z.pow_le_mono_r; lia).
        rewrite Z.div_small; [reflexivity | lia]. }
      destruct H6 as [-> | [-> | Hi]].
      * destruct leave, disable, ascii_only; split; reflexivity.
      * destruct leave, disable, ascii_only; split; reflexivity.
      * split; apply Hb; try exact Hi;
          destruct leave, disable, ascii_only;
          (split; [apply Z.leb_le | apply Z.ltb_lt]; reflexivity).
  - destruct leave, disable, ascii_only; split; reflexivity.
Qed.

Lemma c_int64_range (z : Z) :
  - 2 ^ 63 <= c_int64 z < 2 ^ 63 /\
  (c_int64 z - z) mod 2 ^ 64 = 0 /\
  (- 2 ^ 63 <= z < 2 ^ 63 -> c_int64 z = z).
Proof.
  unfold c_int64.
  assert (H64 : 0 < 2 ^ 64) by reflexivity.
  pose proof (Z.mod_pos_bound (z + 2 ^ 63) (2 ^ 64) H64) as Hb.
  split; [lia |]. split.
  - replace ((z + 2 ^ 63) mod 2 ^ 64 - 2 ^ 63 - z)
      with ((z + 2 ^ 63) mod 2 ^ 64 - (z + 2 ^ 63)) by lia.
    rewrite Zminus_mod, Z.mod_mod by lia.
    rewrite Z.sub_diag. reflexivity.
  - intros Hz. rewrite Z.mod_small; lia.
Qed.

(** X17. What [_ffi.update] and [_ffi.update_async] hand to the engine.
    With the library at hand, the call returns what the engine returned
    and is the one call added to the log; the increment the engine
    receives is the signed 64-bit integer congruent to the Python
    integer modulo 2^64: the integer itself when it is in range, wrapped
    otherwise (an increment of 2^63 arrives as -2^63, one of 2^64 as
    0). *)
Theorem update_sends_int64 (state : option handle) (k : Z) (w : world) :
  loadable w ->
  exists k' : Z,
    - 2 ^ 63 <= k' < 2 ^ 63 /\
    (k' - k) mod 2 ^ 64 = 0 /\
    (- 2 ^ 63 <= k < 2 ^ 63 -> k' = k) /\
    (exists (r : Z) (w' : world),
        _ffi.update state k w = (Return r, w') /\
        (r, _ffi.engine w') = progress_bar_update state k' (_ffi.engine w) /\
        _ffi.calls w' = _ffi.calls w ++ [Call_update state k' r]) /\
    (exists (r : Z) (w' : world),
        _ffi.update_async state k w = (Return r, w') /\
        (r, _ffi.engine w')
        = progress_bar_update_async state k' (_ffi.engine w) /\
        _ffi.calls w' = _ffi.calls w ++ [Call_update_async state k' r]).
Proof.
  intros L. exists (c_int64 k).
  destruct (c_int64_range k) as (Hr & Hm & Hi).
  split; [exact Hr |]. split; [exact Hm |]. split; [exact Hi |].
  split.
  - unfold _ffi.update, bind. rewrite (get_lib_loadable w L), foreign_run.
    do 2 eexists. split; [reflexivity |]. cbn [_ffi.engine _ffi.calls].
    rewrite loaded_engine, loaded_calls.
    split; [symmetry; apply surjective_pairing | reflexivity].
  - unfold _ffi.update_async, bind.
    rewrite (get_lib_loadable w L), foreign_run.
    do 2 eexists. split; [reflexivity |]. cbn [_ffi.engine _ffi.calls].
    rewrite loaded_engine, loaded_calls.
    split; [symmetry; apply surjective_pairing | reflexivity].
Qed.

(** *** Finding the library *)



(** *** trange *)

Lemma range_items_upto (stop : Z) :
  Range.range_items 0 stop 1 = map Z.of_nat (seq 0 (Z.to_nat stop)).
Proof.
  unfold Range.range_items, Range.range_len. cbn [Z.ltb Z.compare].
  assert (Hn : Z.to_nat (if 0 <? stop then (stop - 0 - 1) / 1 + 1 else 0)
               = Z.to_nat stop).
  { destruct (Z.ltb_spec 0 stop) as [H | H].
    - rewrite Z.div_1_r. f_equal. lia.
    - destruct stop; try reflexivity. lia. }
  rewrite Hn. apply map_ext. intros i. lia.
Qed.

(** *** Describing, refreshing, leaving a with block *)

Lemma init_reached (a : init_args) (w w0 : world) (s0 : asmqdm)
  (os : list op) :
  __init__ a w = (Return s0, w0) ->
  reached a w (after_ops (mk_config s0 w0) os).
Proof.
  intros H. apply reached_steps.
  destruct (init_returns a w w0 s0 H) as (_ & _ & _ & Hd & _ & _ & Hs).
  split; [exact (init_guarded a w w0 s0 H) |].
  split; [exact Hd |].
  split; [intros Ha; now destruct (Hs Ha) |].
  exact (init_calls a w w0 s0 H).
Qed.

Lemma guarded_idle_no_state (s : asmqdm) :
  guarded s -> live s = false -> _state s = None.
Proof.
  intros G L. destruct (_state s) as [h |] eqn:Hs; [| reflexivity].
  destruct G as [_ Hc]; [congruence |].
  unfold live in L. rewrite Hs, Hc in L. discriminate.
Qed.

(** X12. On a live instance, any operations after its creation,
    [set_description] with a description that UTF-8 can encode (any
    string without a lone surrogate, or [None]) encodes it into a bytes
    object (the constant [b""] for [None] or an empty string, where
    [__init__] sends NULL), makes [self._desc_bytes] refer to it and
    hands it to the engine with its length, in exactly one call; count,
    total and state are untouched.  With a description that cannot be
    encoded it raises UnicodeEncodeError after recording the description
    in [self.desc]: [self._desc_bytes] is left alone and nothing is
    called. *)
Theorem set_description_installs (a : init_args) (w w0 : world)
  (s0 : asmqdm) (os : list op) (d : option string) :
  __init__ a w = (Return s0, w0) ->
  let c := after_ops (mk_config s0 w0) os in
  live (self c) = true ->
  (encodable d ->
   exists (b : pybytes) (c' : config),
     set_description d c = (Return tt, c') /\
     ob_val b = match d with
                | Some str => list_byte_of_string str
                | None => []
                end /\
     (ob_val b = [] -> b = empty_bytes) /\
     _desc_bytes (self c') = Some b /\
     _ffi.calls (wld c')
     = _ffi.calls (wld c)
         ++ [Call_set_description (_state (self c)) b
                                  (c_int64 (bytes_len b))] /\
     n (self c') = n (self c) /\ total (self c') = total (self c) /\
     live (self c') = true) /\
  (~ encodable d ->
   set_description d c
   = (Raise UnicodeEncodeError, mk_config (set_desc d (self c)) (wld c))).
Proof.
  intros H c L.
  pose proof (steady_steps _ _ os _ (init_steady a w w0 s0 H)) as (_ & R & _).
  fold c in R. destruct c as [s w1]. cbn [self wld] in *.
  unfold set_description, bind, assign, modify, attr, id. cbn [self wld].
  change (live (set_desc d s)) with (live s). rewrite L.
  unfold rebind_desc_bytes, bind, lift at 1, assign, modify, ret.
  cbn [self wld].
  split.
  - intros He.
    assert (Hb : exists b w2,
               description_bytes d w1 = (Return b, w2) /\
               _ffi._lib w2 = _ffi._lib w1 /\
               _ffi.calls w2 = _ffi.calls w1 /\
               ob_val b = match d with
                          | Some str => list_byte_of_string str
                          | None => []
                          end /\
               (ob_val b = [] -> b = empty_bytes)).
    { unfold description_bytes, encode, ret. unfold encodable in He.
      destruct d as [str |]; [destruct (str_truthy str) eqn:Hs |].
      - rewrite He. do 2 eexists. repeat split. cbn.
        destruct str; [discriminate Hs |].
        intros Hv; discriminate Hv.
      - do 2 eexists. repeat split.
        destruct str; [reflexivity | discriminate].
      - do 2 eexists. repeat split. }
    destruct Hb as (b & w2 & Hb & Hl & Hc & Hv & Hem). rewrite Hb.
    cbn [self wld].
    assert (H1 : _ffi._lib w2 = true) by (rewrite Hl; exact (R L)).
    unfold _ffi.set_description.
    rewrite (lift_ffi_loaded _ _
               (mk_config (set__desc_bytes (Some b) (set_desc d s)) w2) H1).
    exists b. eexists. split; [reflexivity |]. cbn. rewrite Hc.
    repeat split; try assumption; reflexivity.
  - intros Hne.
    destruct (description_bytes_run d w1)
      as [[Hb _] | (b & w2 & _ & _ & _ & _ & He)];
      [| now elim Hne].
    unfold rebind_desc_bytes, bind, lift, assign, modify, ret.
    cbn [self wld]. now rewrite Hb.
Qed.

(** X13. [refresh], any operations after the creation: on a live instance it
    makes exactly one render call on the held state, on any other
    instance none; it returns normally and never changes an attribute
    of the instance. *)
Theorem refresh_renders_once (a : init_args) (w w0 : world) (s0 : asmqdm)
  (os : list op) :
  __init__ a w = (Return s0, w0) ->
  let c := after_ops (mk_config s0 w0) os in
  exists c' : config,
    refresh c = (Return tt, c') /\
    self c' = self c /\
    _ffi.calls (wld c')
    = _ffi.calls (wld c)
        ++ (if live (self c) then [Call_render (_state (self c))] else []).
Proof.
  intros H c.
  pose proof (steady_steps _ _ os _ (init_steady a w w0 s0 H)) as (_ & R & _).
  fold c in R. unfold refresh, bind, attr, id.
  destruct (live (self c)) eqn:L.
  - unfold _ffi.render. rewrite (lift_ffi_loaded _ _ c (R L)).
    eexists. split; [reflexivity |]. split; reflexivity.
  - exists c. split; [reflexivity |]. split; [reflexivity |].
    now rewrite app_nil_r.
Qed.

(** X14. Leaving a [with] block, whatever was done to the instance before:
    [__exit__] returns [False], so an exception of the block is not
    swallowed; afterwards the instance holds no state and is not live; a
    live instance was closed by exactly one close call of its mode, any
    other instance is left as it was; and no later operation makes a
    call. *)
Theorem exit_releases (a : init_args) (w w0 : world) (s0 : asmqdm)
  (os : list op) :
  __init__ a w = (Return s0, w0) ->
  let c := after_ops (mk_config s0 w0) os in
  exists c' : config,
    __exit__ c = (Return false, c') /\
    _state (self c') = None /\ live (self c') = false /\
    (live (self c) = true ->
     _closed (self c') = true /\
     _ffi.calls (wld c') = _ffi.calls (wld c) ++ [close_call (self c)]) /\
    (live (self c) = false -> c' = c) /\
    (forall o : op, wld (after_op c' o) = wld c').
Proof.
  intros H c.
  pose proof (steady_steps _ _ os _ (init_steady a w w0 s0 H)) as (_ & R & _).
  pose proof (init_reached a w w0 s0 os H) as (G & _).
  fold c in R, G. unfold __exit__, bind.
  assert (Hquiet : forall c' : config,
             live (self c') = false ->
             forall o : op, wld (after_op c' o) = wld c').
  { intros c' L' o. destruct (op_effect c' o) as (_ & _ & He & _).
    now destruct (He L'). }
  destruct (live (self c)) eqn:L.
  - destruct (close_live_did c L (R L)) as (c' & Hc & Hd). rewrite Hc.
    cbn [did] in Hd.
    destruct Hd as (_ & Hcalls & _ & Hs & Hcl & _).
    assert (L' : live (self c') = false) by (unfold live; now rewrite Hs).
    exists c'. unfold ret.
    split; [reflexivity |]. split; [exact Hs |]. split; [exact L' |].
    split; [intros _; now split |].
    split; [intros Hf; discriminate Hf | exact (Hquiet c' L')].
  - rewrite (close_not_live c L). exists c. unfold ret.
    split; [reflexivity |].
    split; [exact (guarded_idle_no_state _ G L) |]. split; [exact L |].
    split; [intros Hf; discriminate Hf |].
    split; [reflexivity | exact (Hquiet c L)].
Qed.

End MoreProperties.

Section TrangeProperties.
Context {E : Engine}.

(** X19. [trange(stop)] on a disabled bar, no total given.  For [stop]
    up to [sys.maxsize] the instance wraps [0, 1, ..., stop-1], its
    total is [stop] (0 for a negative [stop]), a loop to the end
    receives these integers in order and leaves [n] at the total,
    without touching the process-wide state.  For a larger [stop] the
    construction raises OverflowError, from [len] of the range, and
    touches nothing.  [trange] without argument, or with a step of 0,
    creates no instance. *)
Theorem trange_counts (kw : @init_args Z) (w : @_ffi.world E) (stop : Z)
  (extra : nat) :
  arg_iterable kw = None ->
  arg_disable kw = true ->
  arg_total kw = None ->
  (exists run : ST (@_ffi.world E) (@asmqdm Z),
      Range.trange [stop] kw = Some run /\
      (stop <= Range.sys_maxsize ->
       exists s0 s1 : @asmqdm Z,
         run w = (Return s0, w) /\
         total s0 = Z.max 0 stop /\
         for_loop (S (Z.to_nat stop + extra)) (mk_config s0 w)
         = (Return (map Z.of_nat (seq 0 (Z.to_nat stop))), mk_config s1 w) /\
         n s1 = Z.max 0 stop) /\
      (Range.sys_maxsize < stop -> run w = (Raise OverflowError, w))) /\
  @Range.trange E [] kw = None /\
  (forall start stop', @Range.trange E [start; stop'; 0] kw = None).
Proof.
  intros Hi Hd Ht. split; [| split].
  - unfold Range.trange. rewrite Hi. cbn [Range.range].
    eexists. split; [reflexivity |]. cbv beta. rewrite Ht.
    assert (Hrl : Range.range_len 0 stop 1 = Z.max 0 stop).
    { unfold Range.range_len. cbn [Z.ltb Z.compare].
      destruct (Z.ltb_spec 0 stop) as [H | H];
        [rewrite Z.div_1_r |]; lia. }
    rewrite Hrl, range_items_upto.
    assert (Hlen : List.length (map Z.of_nat (seq 0 (Z.to_nat stop)))
                   = Z.to_nat stop)
      by (now rewrite length_map, length_seq).
    split.
    + intros Hle.
      assert (Hb : (Range.sys_maxsize <? Z.max 0 stop) = false)
        by (apply Z.ltb_ge; unfold Range.sys_maxsize in *; lia).
      rewrite Hb.
      do 2 eexists. split; [apply init_disabled; exact Hd |].
      split; [| split].
      * cbn [total]. unfold init_total, len. cbn.
        rewrite Hlen. lia.
      * match goal with
        | |- for_loop _ ?c = _ =>
            pose proof (for_loop_idle
                          c (mk_iterable
                               (map Z.of_nat (seq 0 (Z.to_nat stop)))
                               true false)
                          extra eq_refl eq_refl) as Hf
        end.
        unfold len in Hf. cbn [items] in Hf. rewrite Hlen in Hf.
        rewrite Hf. unfold moved, advance. cbn. reflexivity.
      * cbn. lia.
    + intros Hgt.
      assert (Hb : (Range.sys_maxsize <? Z.max 0 stop) = true)
        by (apply Z.ltb_lt; unfold Range.sys_maxsize in *; lia).
      now rewrite Hb.
  - unfold Range.trange. now destruct (arg_iterable kw).
  - intros start stop'. unfold Range.trange. cbn [Range.range].
    now destruct (arg_iterable kw).
Qed.

End TrangeProperties.

(** *** The further theorems applied *)

Lemma init_call_witness :
  __init__ loading_args RefEngine.fresh_world
  = (Return (self loading_bar), wld loading_bar) /\
  arg_disable loading_args = false /\
  _is_async (self loading_bar) = arg_async_render loading_args /\
  _desc_bytes (self loading_bar)
  = match arg_desc loading_args with
    | Some str =>
        if str_truthy str
        then Some (mk_bytes (_ffi.next_id RefEngine.fresh_world)
                            (list_byte_of_string str))
        else None
    | None => None
    end /\
  _ffi.calls (wld loading_bar)
  = _ffi.calls RefEngine.fresh_world
      ++ [create_call (arg_async_render loading_args)
                      (init_total loading_args)
                      (_desc_bytes (self loading_bar))
                      (enabled_flags (arg_leave loading_args)
                                     (arg_ascii loading_args)
                                     (arg_async_render loading_args))
                      (_state (self loading_bar))] /\
  _ffi._lib (wld loading_bar) = true.
Proof.
  split; [reflexivity |]. split; [reflexivity |].
  apply (init_call loading_args RefEngine.fresh_world (wld loading_bar)
                   (self loading_bar)); reflexivity.
Defined.

Lemma operations_raise_only_stop_iteration_witness :
  __init__ list_args RefEngine.fresh_world
  = (Return (self list_bar), wld list_bar) /\
  let c := after_ops (mk_config (self list_bar) (wld list_bar))
                     [Op_iter; Op_next; Op_next; Op_next] in
  fst (run_op Op_next c) <> Raise OSError /\
  (fst (run_op Op_next c) = Raise StopIteration <->
   Op_next = Op_next /\
   (_iterator (self c) = None \/ _iterator (self c) = Some [])).
Proof.
  split; [reflexivity |].
  apply (operations_raise_only_stop_iteration
           list_args RefEngine.fresh_world (wld list_bar) (self list_bar)).
  reflexivity.
Defined.

Lemma description_kept_alive_witness :
  __init__ loading_args RefEngine.fresh_world
  = (Return (self loading_bar), wld loading_bar) /\
  let c := after_ops (mk_config (self loading_bar) (wld loading_bar))
                     [Op_update 3; Op_set_description (Some "Done"%string);
                      Op_update 4] in
  live (self c) = true /\
  exists log : list ffi_call,
    _ffi.calls (wld c) = _ffi.calls RefEngine.fresh_world ++ log /\
    installed_desc (_state (self c)) log None = _desc_bytes (self c).
Proof.
  split; [reflexivity |]. split; [reflexivity |].
  apply (description_kept_alive_between_operations
           loading_args RefEngine.fresh_world (wld loading_bar)
           (self loading_bar)); reflexivity.
Defined.

Lemma calls_follow_mode_witness :
  __init__ loading_args RefEngine.fresh_world
  = (Return (self loading_bar), wld loading_bar) /\
  let c := after_ops (mk_config (self loading_bar) (wld loading_bar))
                     [Op_update 3; Op_refresh; Op_close; Op_update 4] in
  let async := negb (arg_disable loading_args)
               && arg_async_render loading_args in
  _is_async (self c) = async /\
  exists log : list ffi_call,
    _ffi.calls (wld c) = _ffi.calls RefEngine.fresh_world ++ log /\
    Forall (mode_call async) log.
Proof.
  split; [reflexivity |].
  apply (calls_follow_mode loading_args RefEngine.fresh_world
                           (wld loading_bar) (self loading_bar)).
  reflexivity.
Defined.

Lemma update_live_takes_engine_count_witness :
  __init__ list_args RefEngine.fresh_world
  = (Return (self list_bar), wld list_bar) /\
  let c := after_ops (mk_config (self list_bar) (wld list_bar))
                     [Op_update 2] in
  live (self c) = true /\
  exists (r : Z) (c' : Scenario.config),
    update 5 c = (Return tt, c') /\
    _ffi.calls (wld c') = _ffi.calls (wld c) ++ [update_call (self c) 5 r] /\
    n (self c') = r /\
    live (self c') = true /\ total (self c') = total (self c).
Proof.
  split; [reflexivity |]. split; [reflexivity |].
  apply (update_live_takes_engine_count
           list_args RefEngine.fresh_world (wld list_bar) (self list_bar));
    reflexivity.
Defined.

Lemma close_live_releases_once_witness :
  __init__ loading_args RefEngine.fresh_world
  = (Return (self loading_bar), wld loading_bar) /\
  let c := after_ops (mk_config (self loading_bar) (wld loading_bar))
                     [Op_update 2] in
  live (self c) = true /\
  exists c' : Scenario.config,
    close c = (Return tt, c') /\
    _ffi.calls (wld c') = _ffi.calls (wld c) ++ [close_call (self c)] /\
    _state (self c') = None /\ _closed (self c') = true /\
    n (self c') = n (self c) /\ total (self c') = total (self c) /\
    _desc_bytes (self c') = _desc_bytes (self c).
Proof.
  split; [reflexivity |]. split; [reflexivity |].
  apply (close_live_releases_once
           loading_args RefEngine.fresh_world (wld loading_bar)
           (self loading_bar)); reflexivity.
Defined.

Lemma disabled_loop_counts_witness :
  arg_disable disabled_list_args = true /\
  arg_iterable disabled_list_args
  = Some (mk_iterable [10; 20; 30]%nat true false) /\
  exists s0 s1 : @asmqdm nat,
    __init__ disabled_list_args RefEngine.no_lib_world
    = (Return s0, RefEngine.no_lib_world) /\
    for_loop (S (3 + 0)) (mk_config s0 RefEngine.no_lib_world)
    = (Return [10; 20; 30]%nat, mk_config s1 RefEngine.no_lib_world) /\
    n s1 = len (mk_iterable [10; 20; 30]%nat true false) /\
    _closed s1 = false /\
    (arg_total disabled_list_args = None ->
     has_len (mk_iterable [10; 20; 30]%nat true false) = true ->
     n s1 = total s1).
Proof.
  split; [reflexivity |]. split; [reflexivity |].
  apply (disabled_loop_counts disabled_list_args RefEngine.no_lib_world
                              (mk_iterable [10; 20; 30]%nat true false) 0);
    reflexivity.
Defined.

Lemma loop_without_iterable_witness :
  iterable (self loading_bar) = None /\
  _iterator (self loading_bar) = None /\
  for_loop 5 loading_bar = (Return [], loading_bar).
Proof.
  split; [reflexivity |]. split; [reflexivity |].
  apply (loop_without_iterable loading_bar 5); reflexivity.
Defined.

Lemma second_loop_counts_on_witness :
  usable list_bar /\
  iterable (self list_bar) = Some (mk_iterable [10; 20; 30]%nat true false) /\
  let c1 := snd (for_loop (S (3 + 0)) list_bar) in
  live (self c1) = false /\
  (live (self list_bar) = true ->
   _state (self c1) = None /\ _closed (self c1) = true) /\
  (one_shot (mk_iterable [10; 20; 30]%nat true false) = false ->
   for_loop (S (3 + 1)) c1
   = (Return [10; 20; 30]%nat,
      mk_config (set__iterator (Some [])
                   (set_n (n (self c1)
                           + len (mk_iterable [10; 20; 30]%nat true false))
                          (self c1)))
                (wld c1))) /\
  (one_shot (mk_iterable [10; 20; 30]%nat true false) = true ->
   forall brk : nat, for_loop brk c1 = (Return [], c1)).
Proof.
  assert (U : usable list_bar) by (intros _; left; reflexivity).
  split; [exact U |]. split; [reflexivity |].
  exact (second_loop_counts_on list_bar
           (mk_iterable [10; 20; 30]%nat true false) 0 1 U eq_refl).
Defined.

Lemma full_loop_calls_engine_witness :
  __init__ list_args RefEngine.fresh_world
  = (Return (self list_bar), wld list_bar) /\
  let c := after_ops (mk_config (self list_bar) (wld list_bar)) [] in
  live (self c) = true /\
  iterable (self c) = Some (mk_iterable [10; 20; 30]%nat true false) /\
  exists (rs : list Z) (c' : Scenario.config),
    for_loop (S (3 + 0)) c = (Return [10; 20; 30]%nat, c') /\
    List.length rs = 3%nat /\
    _ffi.calls (wld c')
    = _ffi.calls (wld c)
        ++ map (update_call (self c) 1) rs ++ [close_call (self c)] /\
    _state (self c') = None /\ _closed (self c') = true /\
    n (self c') = last rs (n (self c)).
Proof.
  split; [reflexivity |]. split; [reflexivity |]. split; [reflexivity |].
  apply (full_loop_calls_engine
           list_args RefEngine.fresh_world (wld list_bar) (self list_bar)
           [] (mk_iterable [10; 20; 30]%nat true false) 0); reflexivity.
Defined.

Lemma trange_counts_witness :
  arg_iterable quiet_kwargs = None /\
  arg_disable quiet_kwargs = true /\
  arg_total quiet_kwargs = None /\
  (exists run : ST (@_ffi.world RefEngine.engine) (@asmqdm Z),
      Range.trange [4] quiet_kwargs = Some run /\
      (4 <= Range.sys_maxsize ->
       exists s0 s1 : @asmqdm Z,
         run RefEngine.no_lib_world = (Return s0, RefEngine.no_lib_world) /\
         total s0 = Z.max 0 4 /\
         for_loop (S (Z.to_nat 4 + 0)) (mk_config s0 RefEngine.no_lib_world)
         = (Return (map Z.of_nat (seq 0 (Z.to_nat 4))),
            mk_config s1 RefEngine.no_lib_world) /\
         n s1 = Z.max 0 4) /\
      (Range.sys_maxsize < 4 ->
       run RefEngine.no_lib_world
       = (Raise OverflowError, RefEngine.no_lib_world))).
Proof.
  split; [reflexivity |]. split; [reflexivity |]. split; [reflexivity |].
  apply (trange_counts quiet_kwargs RefEngine.no_lib_world 4 0);
    reflexivity.
Defined.

(** The test of the sources: [list(trange(5, disable=True))]. *)
Example trange_five :
  match Range.trange [5] quiet_kwargs with
  | Some run =>
      match run RefEngine.no_lib_world with
      | (Return s, w) =>
          fst (for_loop 6 (mk_config s w)) = Return [0; 1; 2; 3; 4]
      | (Raise _, _) => False
      end
  | None => False
  end.
Proof. reflexivity. Qed.

Lemma set_description_installs_witness :
  __init__ loading_args RefEngine.fresh_world
  = (Return (self loading_bar), wld loading_bar) /\
  let c := after_ops (mk_config (self loading_bar) (wld loading_bar))
                     [Op_update 3] in
  live (self c) = true /\
  (encodable (Some "Done"%string) ->
   exists (b : pybytes) (c' : Scenario.config),
     core.set_description (Some "Done"%string) c = (Return tt, c') /\
     ob_val b = list_byte_of_string "Done" /\
     (ob_val b = [] -> b = empty_bytes) /\
     _desc_bytes (self c') = Some b /\
     _ffi.calls (wld c')
     = _ffi.calls (wld c)
         ++ [Call_set_description (_state (self c)) b
                                  (c_int64 (bytes_len b))] /\
     n (self c') = n (self c) /\ total (self c') = total (self c) /\
     live (self c') = true) /\
  (~ encodable (Some "Done"%string) ->
   core.set_description (Some "Done"%string) c
   = (Raise UnicodeEncodeError,
      mk_config (set_desc (Some "Done"%string) (self c)) (wld c))).
Proof.
  split; [reflexivity |]. split; [reflexivity |].
  apply (set_description_installs
           loading_args RefEngine.fresh_world (wld loading_bar)
           (self loading_bar) [Op_update 3] (Some "Done"%string));
    reflexivity.
Defined.

Lemma update_sends_int64_witness :
  loadable RefEngine.fresh_world /\
  exists k' : Z,
    - 2 ^ 63 <= k' < 2 ^ 63 /\
    (k' - 2 ^ 63) mod 2 ^ 64 = 0 /\
    (- 2 ^ 63 <= 2 ^ 63 < 2 ^ 63 -> k' = 2 ^ 63) /\
    (exists (r : Z) (w' : @_ffi.world RefEngine.engine),
        _ffi.update (Some 1) (2 ^ 63) RefEngine.fresh_world = (Return r, w') /\
        (r, _ffi.engine w')
        = progress_bar_update (Some 1) k'
                              (_ffi.engine RefEngine.fresh_world) /\
        _ffi.calls w'
        = _ffi.calls RefEngine.fresh_world ++ [Call_update (Some 1) k' r]) /\
    (exists (r : Z) (w' : @_ffi.world RefEngine.engine),
        _ffi.update_async (Some 1) (2 ^ 63) RefEngine.fresh_world
        = (Return r, w') /\
        (r, _ffi.engine w')
        = progress_bar_update_async (Some 1) k'
                                    (_ffi.engine RefEngine.fresh_world) /\
        _ffi.calls w'
        = _ffi.calls RefEngine.fresh_world
            ++ [Call_update_async (Some 1) k' r]).
Proof.
  assert (L : loadable RefEngine.fresh_world) by (right; reflexivity).
  split; [exact L |].
  exact (update_sends_int64 (Some 1) (2 ^ 63) RefEngine.fresh_world L).
Defined.

Lemma refresh_renders_once_witness :
  __init__ list_args RefEngine.fresh_world
  = (Return (self list_bar), wld list_bar) /\
  let c := after_ops (mk_config (self list_bar) (wld list_bar))
                     [Op_update 1] in
  exists c' : Scenario.config,
    refresh c = (Return tt, c') /\
    self c' = self c /\
    _ffi.calls (wld c')
    = _ffi.calls (wld c)
        ++ (if live (self c) then [Call_render (_state (self c))] else []).
Proof.
  split; [reflexivity |].
  apply (refresh_renders_once
           list_args RefEngine.fresh_world (wld list_bar) (self list_bar)
           [Op_update 1]).
  reflexivity.
Defined.

Lemma exit_releases_witness :
  __init__ loading_args RefEngine.fresh_world
  = (Return (self loading_bar), wld loading_bar) /\
  let c := after_ops (mk_config (self loading_bar) (wld loading_bar))
                     [Op_enter; Op_update 10;
                      Op_set_description (Some "Middle"%string);
                      Op_update 10] in
  exists c' : Scenario.config,
    __exit__ c = (Return false, c') /\
    _state (self c') = None /\ live (self c') = false /\
    (live (self c) = true ->
     _closed (self c') = true /\
     _ffi.calls (wld c') = _ffi.calls (wld c) ++ [close_call (self c)]) /\
    (live (self c) = false -> c' = c) /\
    (forall o : op, wld (after_op c' o) = wld c').
Proof.
  split; [reflexivity |].
  apply (exit_releases
           loading_args RefEngine.fresh_world (wld loading_bar)
           (self loading_bar)).
  reflexivity.
Defined.
